(** * The to-do router: ordering of the items of a to-do list

    Shallow embedding of the Express router of the repository
    (POST/GET/PATCH/DELETE on [/todos]) over a model of the Mongoose [Todo]
    collection, and the properties of the ordering logic.

    Modelling conventions.
    - A document is a record [Todo]; the collection is the list of its
      documents in insertion (natural) order, which is the order in which
      [findOne] looks for a match.
    - [_id] values are the identifiers generated for new documents; they are
      drawn from a counter kept next to the collection. The [:todoId] of a
      request is a well-formed identifier.
    - [order] is a JavaScript number holding an integer: an integer that a
      double represents, as a [Z]. The addition of the router is the
      addition of doubles, which rounds its result to the nearest double
      ([js_add]); it is exact up to 2^53 in absolute value.
    - A JavaScript string is represented by the bytes of its UTF-8
      encoding, as the literals of this file are; [js_length] is its
      [.length], the number of its UTF-16 code units.
    - The body of a PATCH request carries an integer [order], a boolean
      [done] and a string [value], each of them possibly omitted; the
      body of a POST request is an object whose [value] is any JSON value
      and which may have other keys, since the handler validates it.
    - [doneAt] is absent, null or a date ([DoneAt]), the instant of a date
      as a number.
    - [new Date()] reads the clock: each PATCH request carries the instant
      [now] at which it is served.
    - A handler is a function from the collection to the outcome of the
      request and the collection it leaves: the requests are served one
      after the other. *)

From Stdlib Require Import ZArith List Ascii String Bool Lia Permutation Sorted
  FinFun.
Import ListNotations.
Open Scope Z_scope.

(** ** Values of a JSON request body *)

Inductive JVal : Type :=
| JUndefined                (* the key is missing *)
| JNull
| JBool (b : bool)
| JNum (z : Z)
| JStr (s : string).

(** JavaScript truthiness of a number and of a string: [if (order)],
    [if (value)], [!value]. *)
Definition truthy_number (z : Z) : bool := negb (z =? 0).

Definition truthy_string (s : string) : bool :=
  match s with
  | EmptyString => false
  | String _ _ => true
  end.

(** [value.length]: the number of UTF-16 code units of a string. Of the
    bytes of its UTF-8 encoding, one that starts a character of one, two or
    three bytes stands for one code unit, one that starts a character of
    four bytes (a character outside the basic plane) for two, and a
    continuation byte for none. *)
Definition code_units (c : ascii) : nat :=
  let b := nat_of_ascii c in
  if (b <? 128)%nat then 1%nat
  else if (b <? 192)%nat then 0%nat
  else if (b <? 240)%nat then 1%nat
  else 2%nat.

Fixpoint js_length (s : string) : nat :=
  match s with
  | EmptyString => 0%nat
  | String c s' => (code_units c + js_length s')%nat
  end.

(** ** Numbers *)

(** The integers from -2^53 to 2^53 are doubles, and a double beyond them
    is an integer with 53 significant bits. [round_double x] is the double
    nearest to the integer [x], the one with an even significand when two
    are as near; it is what an arithmetic operation of exact result [x]
    returns (as long as [x] is below the largest double, which the sum of a
    double and 1 is). *)
Definition two53 : Z := 9007199254740992.

Definition round_double (x : Z) : Z :=
  let a := Z.abs x in
  if a <=? two53 then x
  else
    let ulp := 2 ^ (Z.log2 a - 52) in
    let q := a / ulp in
    let r := a mod ulp in
    let q' :=
      if 2 * r <? ulp then q
      else if ulp <? 2 * r then q + 1
      else if Z.even q then q else q + 1 in
    Z.sgn x * (q' * ulp).

(** [x + y] on numbers that hold integers. *)
Definition js_add (x y : Z) : Z := round_double (x + y).

(** ** The Todo collection *)

(** The [doneAt] of a document: the key is absent, or it holds null or a
    date. *)
Inductive DoneAt : Type :=
| Undefined
| Null
| Date (instant : Z).

(** Modelled from the spec: the Mongoose schema of the [Todo] model
    ([schemas/todo.schema.js]) is not among the sources. The record has the
    persisted shape of section 6 of the specification, which is also the
    set of fields the router reads and writes. By sections 3 and 4 the
    storage layer checks neither the length of [value] nor the uniqueness
    of [order]. *)
Record Todo : Type := mkTodo {
  _id : nat;
  value : string;
  order : Z;
  doneAt : DoneAt
}.

Record Store : Type := mkStore {
  docs : list Todo;
  nextId : nat
}.

Definition empty_store : Store := {| docs := []; nextId := 0 |}.

(** Assignments to the fields of a document held in memory. *)
Definition set_order (t : Todo) (o : Z) : Todo :=
  {| _id := _id t; value := value t; order := o; doneAt := doneAt t |}.

Definition set_doneAt (t : Todo) (d : DoneAt) : Todo :=
  {| _id := _id t; value := value t; order := order t; doneAt := d |}.

Definition set_value (t : Todo) (v : string) : Todo :=
  {| _id := _id t; value := v; order := order t; doneAt := doneAt t |}.

(** [.sort('-order')]: the documents by decreasing [order]. Documents of
    equal order come out in their order of insertion here; MongoDB leaves
    their order open, and the statements about sorted lists are made for
    distinct orders, for which there is one sorted list. *)
Fixpoint insert_desc (t : Todo) (l : list Todo) : list Todo :=
  match l with
  | [] => [t]
  | d :: l' =>
      if order d <=? order t then t :: d :: l' else d :: insert_desc t l'
  end.

Fixpoint sort_desc (l : list Todo) : list Todo :=
  match l with
  | [] => []
  | t :: l' => insert_desc t (sort_desc l')
  end.

(** [Todo.find().sort('-order').exec()] *)
Definition find_sort_desc (s : Store) : list Todo := sort_desc (docs s).

(** [Todo.findOne().sort('-order').exec()] *)
Definition findOne_sort_desc (s : Store) : option Todo :=
  hd_error (sort_desc (docs s)).

(** [Todo.findById(todoId).exec()] *)
Definition findById (todoId : nat) (s : Store) : option Todo :=
  find (fun d => Nat.eqb (_id d) todoId) (docs s).

(** [Todo.findOne({ order }).exec()] *)
Definition findOne_order (o : Z) (s : Store) : option Todo :=
  find (fun d => order d =? o) (docs s).

(** [new Todo({ value, order })] followed by [todo.save()]: the document
    gets a fresh [_id], no [doneAt], and is inserted. *)
Definition create (v : string) (o : Z) (s : Store) : Todo * Store :=
  let todo :=
    {| _id := nextId s; value := v; order := o; doneAt := Undefined |} in
  (todo, {| docs := docs s ++ [todo]; nextId := S (nextId s) |}).

(** [doc.save()] of a document read from the collection: the stored
    document with that [_id] is updated. *)
Fixpoint updateOne (t : Todo) (l : list Todo) : list Todo :=
  match l with
  | [] => []
  | d :: l' =>
      if Nat.eqb (_id d) (_id t) then t :: l' else d :: updateOne t l'
  end.

Definition save (t : Todo) (s : Store) : Store :=
  {| docs := updateOne t (docs s); nextId := nextId s |}.

(** [Todo.deleteOne({ _id: todoId })] *)
Fixpoint removeOne (todoId : nat) (l : list Todo) : list Todo :=
  match l with
  | [] => []
  | d :: l' =>
      if Nat.eqb (_id d) todoId then l' else d :: removeOne todoId l'
  end.

Definition deleteOne (todoId : nat) (s : Store) : Store :=
  {| docs := removeOne todoId (docs s); nextId := nextId s |}.

(** ** Requests and outcomes *)

(** The reasons for which the schema
    [joi.object({ value: joi.string().min(1).max(50).required() })] rejects
    a body. *)
Inductive JoiCode : Type :=
| any_required
| string_base
| string_empty
| string_min
| string_max
| object_unknown.

Inductive Error : Type :=
| ValidationError (code : JoiCode).

Inductive Json : Type :=
| JEmpty                              (* {} *)
| JTodo (todo : Todo)                 (* { todo } *)
| JTodos (todos : list Todo)          (* { todos } *)
| JErrorMessage (errorMessage : string).

(** What a handler does with the request: it answers, or it hands an error
    to the error-handling middleware with [next(error)]. *)
Inductive Outcome : Type :=
| Respond (status : nat) (json : Json)
| Next (error : Error).

(** The body of a POST request: what it has under the key [value], and
    the other keys it has. *)
Record PostBody : Type := {
  post_value : JVal;
  post_unknown : list string
}.

Record PatchBody : Type := {
  req_order : option Z;
  req_done : option bool;
  req_value : option string
}.

(** [createdTodoSchema.validateAsync(req.body)] *)
Definition createdTodoSchema (body : PostBody) : Error + string :=
  match post_value body with
  | JUndefined => inl (ValidationError any_required)
  | JStr s =>
      if negb (truthy_string s) then inl (ValidationError string_empty)
      else if (js_length s <? 1)%nat then inl (ValidationError string_min)
      else if (50 <? js_length s)%nat then inl (ValidationError string_max)
      else
        match post_unknown body with
        | [] => inr s
        | _ :: _ => inl (ValidationError object_unknown)
        end
  | _ => inl (ValidationError string_base)
  end.

(** [router.post('/todos', ...)] *)
Definition post_todos (body : PostBody) (s : Store) : Outcome * Store :=
  match createdTodoSchema body with
  | inl error => (Next error, s)
  | inr value =>
      if negb (truthy_string value) then
        (Respond 400 (JErrorMessage "해야할 일(value) 데이터가 존재하지 않습니다."), s)
      else
        let todoMaxOrder := findOne_sort_desc s in
        let order :=
          match todoMaxOrder with
          | Some m => js_add (order m) 1
          | None => 1
          end in
        let (todo, s') := create value order s in
        (Respond 201 (JTodo todo), s')
  end.

(** [router.get('/todos', ...)] *)
Definition get_todos (s : Store) : Outcome * Store :=
  let todos := find_sort_desc s in
  (Respond 200 (JTodos todos), s).

(** [router.patch('/todos/:todoId', ...)] *)
Definition patch_todos (now : Z) (todoId : nat) (body : PatchBody) (s : Store)
  : Outcome * Store :=
  match findById todoId s with
  | None => (Respond 404 (JErrorMessage "존재하지 않는 해야할 일입니다."), s)
  | Some currentTodo =>
      (* [currentTodo.order], read before the request's [order] is bound *)
      let currentOrder := order currentTodo in
      let '(currentTodo, s) :=
        match req_order body with
        | Some order =>
            if truthy_number order then
              let s :=
                match findOne_order order s with
                | Some targetTodo =>
                    save (set_order targetTodo currentOrder) s
                | None => s
                end in
              (set_order currentTodo order, s)
            else (currentTodo, s)
        | None => (currentTodo, s)
        end in
      let currentTodo :=
        match req_done body with
        | Some done =>
            set_doneAt currentTodo (if done then Date now else Null)
        | None => currentTodo
        end in
      let currentTodo :=
        match req_value body with
        | Some value =>
            if truthy_string value then set_value currentTodo value
            else currentTodo
        | None => currentTodo
        end in
      (Respond 200 JEmpty, save currentTodo s)
  end.

(** [router.delete('/todos/:todoId', ...)] *)
Definition delete_todos (todoId : nat) (s : Store) : Outcome * Store :=
  match findById todoId s with
  | None => (Respond 404 (JErrorMessage "존재하지 않는 해야할 일 정보입니다."), s)
  | Some _ => (Respond 200 JEmpty, deleteOne todoId s)
  end.

(** Modelled from the spec: the error-handling middleware that receives
    [next(error)] is not part of the router. The specification (sections 6
    and 7) has a validation error answered with status 400 and a body
    [{ errorMessage }]. [joi_message] stands for the message of the error,
    whose text is not used by any statement. *)
Definition joi_message (code : JoiCode) : string :=
  match code with
  | any_required => "value is required"
  | string_base => "value must be a string"
  | string_empty => "value is not allowed to be empty"
  | string_min => "value length must be at least 1 characters long"
  | string_max =>
      "value length must be less than or equal to 50 characters long"
  | object_unknown => "key is not allowed"
  end.

Definition errorHandler (error : Error) : nat * Json :=
  match error with
  | ValidationError code => (400%nat, JErrorMessage (joi_message code))
  end.

(** The response the client receives. *)
Definition response (o : Outcome) : nat * Json :=
  match o with
  | Respond status json => (status, json)
  | Next error => errorHandler error
  end.

(** ** Sequences of requests *)

Inductive Request : Type :=
| POST (body : PostBody)
| GET
| PATCH (now : Z) (todoId : nat) (body : PatchBody)
| DELETE (todoId : nat).

Definition handle (r : Request) (s : Store) : Outcome * Store :=
  match r with
  | POST body => post_todos body s
  | GET => get_todos s
  | PATCH now todoId body => patch_todos now todoId body s
  | DELETE todoId => delete_todos todoId s
  end.

(** The requests are served in turn; [run_trace] also keeps the outcomes,
    in the order of the calls. *)
Fixpoint run_trace (rs : list Request) (s : Store) : list Outcome * Store :=
  match rs with
  | [] => ([], s)
  | r :: rs' =>
      let (o, s1) := handle r s in
      let (os, s2) := run_trace rs' s1 in
      (o :: os, s2)
  end.

Definition run (rs : list Request) (s : Store) : Store := snd (run_trace rs s).

(** The [order] of the item a Create call answers with. *)
Definition created_order (o : Outcome) : option Z :=
  match o with
  | Respond 201 (JTodo todo) => Some (order todo)
  | _ => None
  end.

(** The orders 1, 2, ..., n. *)
Definition orders_from_1 (n : nat) : list Z :=
  map Z.of_nat (seq 1 n).

(** ** Well-formed collections and views used in the statements *)

(** What holds of the collections the router reaches while the orders stay
    below 2^53: the [_id]s are distinct and were all drawn from the
    counter, and the [order]s are distinct. *)
Record store_wf (s : Store) : Prop := {
  wf_ids : NoDup (map _id (docs s));
  wf_fresh : Forall (fun d => (_id d < nextId s)%nat) (docs s);
  wf_orders : NoDup (map order (docs s))
}.

(** The order of [d] is at least the order of every document of [l]. *)
Definition is_max_order (d : Todo) (l : list Todo) : Prop :=
  In d l /\ forall d', In d' l -> order d' <= order d.

(** The value of a request body is a string of 1 to 50 characters (code
    units). *)
Definition valid_value (v : string) : Prop :=
  (1 <= js_length v <= 50)%nat.

(** The exchange of the two orders [a] and [b]. *)
Definition exchange (a b : Z) (o : Z) : Z :=
  if o =? a then b else if o =? b then a else o.

(** What PATCH does to the document it targets, once found. *)
Definition patch_target (now : Z) (body : PatchBody) (t : Todo) : Todo :=
  let t :=
    match req_order body with
    | Some o => if truthy_number o then set_order t o else t
    | None => t
    end in
  let t :=
    match req_done body with
    | Some done => set_doneAt t (if done then Date now else Null)
    | None => t
    end in
  match req_value body with
  | Some v => if truthy_string v then set_value t v else t
  | None => t
  end.

(** Bodies of PATCH requests that supply one field. *)
Definition only_order (o : Z) : PatchBody :=
  {| req_order := Some o; req_done := None; req_value := None |}.

Definition only_value (v : string) : PatchBody :=
  {| req_order := None; req_done := None; req_value := Some v |}.

Definition only_done (b : bool) : PatchBody :=
  {| req_order := None; req_done := Some b; req_value := None |}.

Definition post (v : string) : Request :=
  POST {| post_value := JStr v; post_unknown := [] |}.

(** A text of 51 characters. *)
Definition text51 : string :=
  "123456789012345678901234567890123456789012345678901".

(** The collection after the exchange step of PATCH: the document that
    holds the requested order, if there is one, gets the order of the
    target. *)
Definition reorder_partner (body : PatchBody) (t : Todo) (s : Store) : Store :=
  match req_order body with
  | Some o =>
      if truthy_number o then
        match findOne_order o s with
        | Some targetTodo => save (set_order targetTodo (order t)) s
        | None => s
        end
      else s
  | None => s
  end.

(** What PATCH on the document [t] does to a document [d] of a well-formed
    collection. *)
Definition patch_doc (now : Z) (body : PatchBody) (t d : Todo) : Todo :=
  if Nat.eqb (_id d) (_id t) then patch_target now body t
  else
    match req_order body with
    | Some o =>
        if truthy_number o && (order d =? o) then set_order d (order t) else d
    | None => d
    end.

(** What PATCH does to the order of a document. *)
Definition patch_order (body : PatchBody) (t : Todo) (o : Z) : Z :=
  match req_order body with
  | Some k => if truthy_number k then exchange (order t) k o else o
  | None => o
  end.

(** Consecutive documents of a list sorted by decreasing order, and by
    strictly decreasing order. *)
Definition desc (a b : Todo) : Prop := order b <= order a.

Definition strict_desc (a b : Todo) : Prop := order b < order a.

(** The order Create gives to the next item. *)
Definition next_order (s : Store) : Z :=
  match findOne_sort_desc s with
  | Some m => js_add (order m) 1
  | None => 1
  end.

(** A value that Create must refuse: missing, not a string, or a string
    of length 0 or above 50. *)
Definition invalid_value (j : JVal) : Prop :=
  match j with
  | JStr v => (js_length v = 0 \/ 50 < js_length v)%nat
  | _ => True
  end.

(** Every order of the collection is between [lo] and [hi]. *)
Definition orders_between (lo hi : Z) (s : Store) : Prop :=
  Forall (fun d => lo <= order d <= hi) (docs s).

(** The orders on which the addition of Create is exact. *)
Definition exact_range (s : Store) : Prop :=
  orders_between (- two53) (two53 - 1) s.

(** The order that a request supplies to Update, if it is one and does, is
    between [lo] and [hi]. *)
Definition patch_order_between (lo hi : Z) (r : Request) : Prop :=
  match r with
  | PATCH _ _ body =>
      match req_order body with
      | Some k => lo <= k <= hi
      | None => True
      end
  | _ => True
  end.

(** Collections used as examples: two items created in turn; and an item
    moved to order -1 before a second one is created, which gets order 0. *)
Definition store_a : Store := run [post "a"] empty_store.

Definition store_ab : Store := run [post "a"; post "b"] empty_store.

Definition store_zero : Store :=
  run [post "a"; PATCH 0 0%nat (only_order (-1)); post "b"] empty_store.

(** An item moved to the order 2^53; and the same with a second item
    created after it. *)
Definition store_big : Store :=
  run [post "a"; PATCH 0 0%nat (only_order two53)] empty_store.

Definition store_tie : Store :=
  run [post "a"; PATCH 0 0%nat (only_order two53); post "b"] empty_store.

(** A text of 17 characters, of three bytes each. *)
Definition text17 : string := "가나다라마바사아자차카타파하가나다".

(** * Properties *)

(** ** Lists of documents *)

Lemma removeOne_incl (i : nat) (l : list Todo) (d : Todo) :
  In d (removeOne i l) -> In d l.
Proof.
  induction l as [|x l IH]; simpl; [tauto|].
  destruct (Nat.eqb (_id x) i); simpl; tauto.
Qed.

Section Lists.

Context {K : Type} (key : Todo -> K).

Lemma key_inj_in (l : list Todo) (a b : Todo) :
  NoDup (map key l) -> In a l -> In b l -> key a = key b -> a = b.
Proof.
  induction l as [|d l IH]; simpl; intros Hnd Ha Hb Hk; [contradiction|].
  inversion Hnd as [|? ? Hnotin Hnd']; subst.
  destruct Ha as [Ha|Ha], Hb as [Hb|Hb]; subst; auto.
  - exfalso. apply Hnotin. rewrite Hk. now apply in_map.
  - exfalso. apply Hnotin. rewrite <- Hk. now apply in_map.
Qed.

Lemma removeOne_NoDup (i : nat) (l : list Todo) :
  NoDup (map key l) -> NoDup (map key (removeOne i l)).
Proof.
  induction l as [|x l IH]; simpl; intros Hnd; [constructor|].
  inversion Hnd as [|? ? Hnotin Hnd']; subst.
  destruct (Nat.eqb (_id x) i); simpl; [assumption|].
  constructor; [|now apply IH].
  intros Hin. apply Hnotin.
  apply in_map_iff in Hin. destruct Hin as [d [Hd Hin]].
  apply in_map_iff. exists d. split; [assumption|].
  eapply removeOne_incl; eassumption.
Qed.

End Lists.

Lemma find_id_In (i : nat) (l : list Todo) (t : Todo) :
  find (fun d => Nat.eqb (_id d) i) l = Some t -> In t l /\ _id t = i.
Proof.
  intros H. apply find_some in H. destruct H as [Hin Heq].
  split; [assumption|]. now apply Nat.eqb_eq.
Qed.

Lemma findById_In (i : nat) (s : Store) (t : Todo) :
  findById i s = Some t -> In t (docs s) /\ _id t = i.
Proof. apply find_id_In. Qed.

Lemma findById_unique (s : Store) (t : Todo) :
  NoDup (map _id (docs s)) -> In t (docs s) -> findById (_id t) s = Some t.
Proof.
  intros Hnd Hin. unfold findById.
  destruct (find (fun d => Nat.eqb (_id d) (_id t)) (docs s)) as [t'|] eqn:E.
  - apply find_id_In in E. destruct E as [Hin' Hid].
    f_equal. eapply (key_inj_in _id); eassumption.
  - exfalso. eapply find_none in E; [|exact Hin].
    simpl in E. rewrite Nat.eqb_refl in E. discriminate.
Qed.

Lemma findOne_order_In (o : Z) (s : Store) (t : Todo) :
  findOne_order o s = Some t -> In t (docs s) /\ order t = o.
Proof.
  intros H. apply find_some in H. destruct H as [Hin Heq].
  split; [assumption|]. now apply Z.eqb_eq.
Qed.

Lemma findOne_order_unique (s : Store) (t : Todo) :
  NoDup (map order (docs s)) -> In t (docs s) ->
  findOne_order (order t) s = Some t.
Proof.
  intros Hnd Hin. unfold findOne_order.
  destruct (find (fun d => order d =? order t) (docs s)) as [t'|] eqn:E.
  - apply find_some in E. destruct E as [Hin' Ho].
    apply Z.eqb_eq in Ho.
    f_equal. eapply (key_inj_in order); eassumption.
  - exfalso. eapply find_none in E; [|exact Hin].
    simpl in E. rewrite Z.eqb_refl in E. discriminate.
Qed.

Lemma findOne_order_none (o : Z) (s : Store) (d : Todo) :
  findOne_order o s = None -> In d (docs s) -> order d <> o.
Proof.
  intros H Hin Ho. eapply find_none in H; [|exact Hin].
  simpl in H. apply Z.eqb_neq in H. contradiction.
Qed.

(** With distinct [_id]s, saving a document rewrites the documents that
    carry its [_id], wherever they are. *)
Lemma updateOne_map (t : Todo) (l : list Todo) :
  NoDup (map _id l) ->
  updateOne t l = map (fun d => if Nat.eqb (_id d) (_id t) then t else d) l.
Proof.
  induction l as [|x l IH]; simpl; intros Hnd; [reflexivity|].
  inversion Hnd as [|? ? Hnotin Hnd']; subst.
  destruct (Nat.eqb (_id x) (_id t)) eqn:E.
  - f_equal. apply Nat.eqb_eq in E.
    rewrite <- (map_id l) at 1. apply map_ext_in. intros d Hd.
    destruct (Nat.eqb (_id d) (_id t)) eqn:E'; [|reflexivity].
    apply Nat.eqb_eq in E'. exfalso. apply Hnotin.
    rewrite E, <- E'. now apply in_map.
  - f_equal. now apply IH.
Qed.

Lemma find_id_map (f : Todo -> Todo) (i : nat) (l : list Todo) :
  (forall d, _id (f d) = _id d) ->
  find (fun d => Nat.eqb (_id d) i) (map f l)
  = option_map f (find (fun d => Nat.eqb (_id d) i) l).
Proof.
  intros Hf. induction l as [|x l IH]; simpl; [reflexivity|].
  rewrite Hf. destruct (Nat.eqb (_id x) i); [reflexivity|assumption].
Qed.

(** ** PATCH, document by document *)

Lemma patch_todos_found now todoId body s t :
  findById todoId s = Some t ->
  patch_todos now todoId body s
  = (Respond 200 JEmpty,
     save (patch_target now body t) (reorder_partner body t s)).
Proof.
  intros H. unfold patch_todos, reorder_partner, patch_target. rewrite H.
  destruct (req_order body) as [k|]; [destruct (truthy_number k)|];
    reflexivity.
Qed.

Lemma reorder_partner_nextId body t s :
  nextId (reorder_partner body t s) = nextId s.
Proof.
  unfold reorder_partner.
  destruct (req_order body) as [k|]; [|reflexivity].
  destruct (truthy_number k); [|reflexivity].
  destruct (findOne_order k s); reflexivity.
Qed.

Lemma reorder_partner_docs body t s :
  store_wf s ->
  docs (reorder_partner body t s)
  = map (fun d =>
           match req_order body with
           | Some o =>
               if truthy_number o && (order d =? o)
               then set_order d (order t) else d
           | None => d
           end) (docs s).
Proof.
  intros [Hids _ Hord]. unfold reorder_partner.
  destruct (req_order body) as [k|]; [|now rewrite map_id].
  destruct (truthy_number k); simpl; [|now rewrite map_id].
  destruct (findOne_order k s) as [p|] eqn:E.
  - apply findOne_order_In in E. destruct E as [Hp Hk].
    simpl. rewrite updateOne_map by assumption.
    apply map_ext_in. intros d Hd. simpl.
    destruct (Nat.eqb (_id d) (_id p)) eqn:Ei.
    + apply Nat.eqb_eq in Ei.
      assert (d = p) by (eapply (key_inj_in _id); eassumption). subst d.
      rewrite Hk, Z.eqb_refl. reflexivity.
    + destruct (order d =? k) eqn:Eo; [|reflexivity].
      apply Z.eqb_eq in Eo. rewrite <- Hk in Eo.
      assert (d = p) by (eapply (key_inj_in order); eassumption). subst d.
      rewrite Nat.eqb_refl in Ei. discriminate.
  - rewrite <- (map_id (docs s)) at 1. apply map_ext_in. intros d Hd.
    destruct (order d =? k) eqn:Eo; [|reflexivity].
    apply Z.eqb_eq in Eo. exfalso.
    eapply findOne_order_none; eassumption.
Qed.

Lemma patch_target_id now body t : _id (patch_target now body t) = _id t.
Proof.
  unfold patch_target.
  destruct (req_order body) as [k|]; [destruct (truthy_number k)|];
    (destruct (req_done body) as [b|]);
    (destruct (req_value body) as [v|]; [destruct (truthy_string v)|]);
    reflexivity.
Qed.

Lemma patch_target_order now body t :
  order (patch_target now body t) = patch_order body t (order t).
Proof.
  unfold patch_target, patch_order, exchange.
  destruct (req_order body) as [k|]; [destruct (truthy_number k)|];
    (destruct (req_done body) as [b|]);
    (destruct (req_value body) as [v|]; [destruct (truthy_string v)|]);
    simpl; rewrite ?Z.eqb_refl; reflexivity.
Qed.

Lemma patch_doc_id now body t d : _id (patch_doc now body t d) = _id d.
Proof.
  unfold patch_doc. destruct (Nat.eqb (_id d) (_id t)) eqn:E.
  - apply Nat.eqb_eq in E. rewrite E. apply patch_target_id.
  - destruct (req_order body) as [k|]; [|reflexivity].
    destruct (truthy_number k && (order d =? k)); reflexivity.
Qed.

Lemma patch_doc_order now body s t d :
  store_wf s -> In t (docs s) -> In d (docs s) ->
  order (patch_doc now body t d) = patch_order body t (order d).
Proof.
  intros [Hids _ Hord] Ht Hd. unfold patch_doc.
  destruct (Nat.eqb (_id d) (_id t)) eqn:E.
  - apply Nat.eqb_eq in E.
    assert (d = t) by (eapply (key_inj_in _id); eassumption). subst d.
    apply patch_target_order.
  - assert (Hne : order d <> order t).
    { intros Ho.
      assert (d = t) by (eapply (key_inj_in order); eassumption). subst d.
      rewrite Nat.eqb_refl in E. discriminate. }
    unfold patch_order, exchange.
    destruct (req_order body) as [k|]; [|reflexivity].
    destruct (truthy_number k); simpl; [|reflexivity].
    apply Z.eqb_neq in Hne. rewrite Hne.
    destruct (order d =? k) eqn:Ek; reflexivity.
Qed.

Lemma patch_todos_docs now todoId body s t :
  store_wf s -> findById todoId s = Some t ->
  patch_todos now todoId body s
  = (Respond 200 JEmpty,
     {| docs := map (patch_doc now body t) (docs s); nextId := nextId s |}).
Proof.
  intros Hwf H. rewrite (patch_todos_found _ _ _ _ _ H).
  f_equal. unfold save. rewrite reorder_partner_nextId. f_equal.
  rewrite updateOne_map.
  - rewrite reorder_partner_docs by assumption. rewrite map_map.
    apply map_ext. intros d. unfold patch_doc.
    rewrite patch_target_id.
    destruct (req_order body) as [k|]; [|reflexivity].
    destruct (truthy_number k && (order d =? k)); reflexivity.
  - rewrite reorder_partner_docs by assumption. rewrite map_map.
    destruct Hwf as [Hids _ _].
    erewrite map_ext; [exact Hids|].
    intros d. simpl.
    destruct (req_order body) as [k|]; [|reflexivity].
    destruct (truthy_number k && (order d =? k)); reflexivity.
Qed.

Lemma exchange_inj a b : Injective (exchange a b).
Proof.
  intros x y. unfold exchange.
  destruct (x =? a) eqn:Exa, (y =? a) eqn:Eya,
           (x =? b) eqn:Exb, (y =? b) eqn:Eyb;
    rewrite ?Z.eqb_eq, ?Z.eqb_neq in *; lia.
Qed.

Lemma patch_order_inj body t : Injective (patch_order body t).
Proof.
  unfold patch_order.
  destruct (req_order body) as [k|]; [destruct (truthy_number k)|];
    try (intros x y H; exact H).
  apply exchange_inj.
Qed.

(** ** Sorting by decreasing order *)

Lemma insert_desc_perm t l : Permutation (insert_desc t l) (t :: l).
Proof.
  induction l as [|d l IH]; simpl; [reflexivity|].
  destruct (order d <=? order t); [reflexivity|].
  rewrite IH. apply perm_swap.
Qed.

Lemma sort_desc_perm l : Permutation (sort_desc l) l.
Proof.
  induction l as [|t l IH]; simpl; [reflexivity|].
  rewrite insert_desc_perm. now apply perm_skip.
Qed.

Lemma insert_desc_sorted t l :
  StronglySorted desc l -> StronglySorted desc (insert_desc t l).
Proof.
  induction 1 as [|d l Hs IH Hall]; simpl.
  - repeat constructor.
  - destruct (order d <=? order t) eqn:E.
    + apply Z.leb_le in E. constructor; [now constructor|].
      constructor; [exact E|].
      eapply Forall_impl; [|exact Hall].
      unfold desc. intros x Hx. lia.
    + apply Z.leb_gt in E. constructor; [exact IH|].
      rewrite insert_desc_perm. constructor; [|exact Hall].
      unfold desc. lia.
Qed.

Lemma sort_desc_sorted l : StronglySorted desc (sort_desc l).
Proof.
  induction l as [|t l IH]; simpl; [constructor|].
  now apply insert_desc_sorted.
Qed.

Lemma sorted_strict l :
  StronglySorted desc l -> NoDup (map order l) -> StronglySorted strict_desc l.
Proof.
  induction 1 as [|d l Hs IH Hall]; simpl; intros Hnd; [constructor|].
  inversion Hnd as [|? ? Hnotin Hnd']; subst.
  constructor; [now apply IH|].
  rewrite Forall_forall in *. intros x Hx.
  specialize (Hall x Hx). unfold desc, strict_desc in *.
  assert (order x <> order d); [|lia].
  intros Heq. apply Hnotin. rewrite <- Heq. now apply in_map.
Qed.

Lemma findOne_sort_desc_max s m :
  findOne_sort_desc s = Some m -> is_max_order m (docs s).
Proof.
  unfold findOne_sort_desc. intros H.
  pose proof (sort_desc_sorted (docs s)) as Hs.
  pose proof (sort_desc_perm (docs s)) as Hp.
  destruct (sort_desc (docs s)) as [|x l]; simpl in H; [discriminate|].
  injection H as ->.
  inversion Hs as [|? ? _ Hall]; subst.
  split.
  - eapply Permutation_in; [exact Hp|]. now left.
  - intros d Hd.
    apply (Permutation_in _ (Permutation_sym Hp)) in Hd.
    destruct Hd as [<-|Hd]; [lia|].
    rewrite Forall_forall in Hall. now apply Hall.
Qed.

Lemma findOne_sort_desc_none s :
  findOne_sort_desc s = None -> docs s = [].
Proof.
  unfold findOne_sort_desc. intros H.
  pose proof (sort_desc_perm (docs s)) as Hp.
  destruct (sort_desc (docs s)); [|discriminate].
  now apply Permutation_nil in Hp.
Qed.

(** ** The addition of Create *)

Lemma js_add_exact x : - two53 <= x < two53 -> js_add x 1 = x + 1.
Proof.
  unfold js_add, round_double, two53. intros H.
  destruct (Z.abs (x + 1) <=? 9007199254740992) eqn:E; [reflexivity|].
  apply Z.leb_gt in E. lia.
Qed.

Lemma orders_between_weaken lo hi hi' s :
  hi <= hi' -> orders_between lo hi s -> orders_between lo hi' s.
Proof.
  intros Hle. apply Forall_impl. intros d Hd. lia.
Qed.

Lemma next_order_exact s hi :
  orders_between (- two53) hi s -> hi < two53 ->
  next_order s
  = match findOne_sort_desc s with
    | Some m => order m + 1
    | None => 1
    end.
Proof.
  intros Hb Hhi. unfold next_order.
  destruct (findOne_sort_desc s) as [m|] eqn:E; [|reflexivity].
  apply findOne_sort_desc_max in E. destruct E as [Hm _].
  unfold orders_between in Hb. rewrite Forall_forall in Hb.
  specialize (Hb m Hm). apply js_add_exact. lia.
Qed.

(** While the orders are below 2^53, the next order is above every order
    of the collection. *)
Lemma next_order_above s hi d :
  orders_between (- two53) hi s -> hi < two53 ->
  In d (docs s) -> order d < next_order s.
Proof.
  intros Hb Hhi Hd. rewrite (next_order_exact s hi Hb Hhi).
  destruct (findOne_sort_desc s) as [m|] eqn:E.
  - apply findOne_sort_desc_max in E. destruct E as [_ Hmax].
    specialize (Hmax d Hd). lia.
  - apply findOne_sort_desc_none in E. rewrite E in Hd. contradiction.
Qed.

Lemma next_order_between s hi :
  orders_between (- two53) hi s -> 0 <= hi -> hi < two53 ->
  - two53 <= next_order s <= hi + 1.
Proof.
  intros Hb H0 Hhi. rewrite (next_order_exact s hi Hb Hhi).
  destruct (findOne_sort_desc s) as [m|] eqn:E.
  - apply findOne_sort_desc_max in E. destruct E as [Hm _].
    unfold orders_between in Hb. rewrite Forall_forall in Hb.
    specialize (Hb m Hm). lia.
  - unfold two53. lia.
Qed.

(** ** POST *)

Lemma valid_value_truthy v : valid_value v -> truthy_string v = true.
Proof.
  unfold valid_value. destruct v; simpl; [lia|reflexivity].
Qed.

Lemma valid_value_schema v :
  valid_value v ->
  createdTodoSchema {| post_value := JStr v; post_unknown := [] |} = inr v.
Proof.
  intros Hv. unfold createdTodoSchema. simpl.
  rewrite (valid_value_truthy _ Hv). simpl.
  destruct Hv as [H1 H50].
  destruct (js_length v <? 1)%nat eqn:E0.
  - apply Nat.ltb_lt in E0. lia.
  - destruct (50 <? js_length v)%nat eqn:E50; [|reflexivity].
    apply Nat.ltb_lt in E50. lia.
Qed.

Lemma post_todos_valid v s :
  valid_value v ->
  post_todos {| post_value := JStr v; post_unknown := [] |} s
  = (Respond 201
       (JTodo {| _id := nextId s; value := v; order := next_order s;
                 doneAt := Undefined |}),
     {| docs := docs s ++ [{| _id := nextId s; value := v;
                              order := next_order s; doneAt := Undefined |}];
        nextId := S (nextId s) |}).
Proof.
  intros Hv. unfold post_todos.
  rewrite (valid_value_schema _ Hv), (valid_value_truthy _ Hv). simpl.
  unfold next_order. destruct (findOne_sort_desc s); reflexivity.
Qed.

(** A request that is not accepted leaves the collection as it is. *)
Lemma post_todos_store body s :
  snd (post_todos body s) = s \/
  exists v,
    valid_value v /\ body = {| post_value := JStr v; post_unknown := [] |}.
Proof.
  unfold post_todos, createdTodoSchema.
  destruct body as [[| |b|z|v] others]; simpl; auto.
  destruct (truthy_string v); simpl; auto.
  destruct (js_length v <? 1)%nat eqn:E0; simpl; auto.
  destruct (50 <? js_length v)%nat eqn:E50; simpl; auto.
  destruct others as [|k others]; simpl; auto.
  right. exists v. split; [|reflexivity].
  apply Nat.ltb_ge in E0. apply Nat.ltb_ge in E50.
  unfold valid_value. lia.
Qed.

(** ** Well-formedness is kept while the orders stay below 2^53 *)

Lemma empty_store_wf : store_wf empty_store.
Proof. split; simpl; constructor. Qed.

Lemma post_todos_wf body s hi :
  store_wf s -> orders_between (- two53) hi s -> hi < two53 ->
  store_wf (snd (post_todos body s)).
Proof.
  intros Hwf Hb Hhi.
  destruct (post_todos_store body s) as [->|[v [Hv ->]]]; [assumption|].
  rewrite (post_todos_valid _ s Hv). simpl.
  destruct Hwf as [Hids Hfresh Hord].
  split; simpl.
  - rewrite map_app. simpl.
    apply NoDup_app; [assumption|repeat constructor; intros []|].
    intros i Hi [<-|[]].
    apply in_map_iff in Hi. destruct Hi as [d [Hid Hd]].
    rewrite Forall_forall in Hfresh. specialize (Hfresh d Hd). lia.
  - apply Forall_app. split.
    + eapply Forall_impl; [|exact Hfresh]. simpl. intros d Hd. lia.
    + repeat constructor.
  - rewrite map_app. simpl.
    apply NoDup_app; [assumption|repeat constructor; intros []|].
    intros o Ho [<-|[]].
    apply in_map_iff in Ho. destruct Ho as [d [Hid Hd]].
    pose proof (next_order_above s hi d Hb Hhi Hd). lia.
Qed.

Lemma post_todos_between body s hi :
  orders_between (- two53) hi s -> 0 <= hi -> hi < two53 ->
  orders_between (- two53) (hi + 1) (snd (post_todos body s)).
Proof.
  intros Hb H0 Hhi.
  destruct (post_todos_store body s) as [->|[v [Hv ->]]].
  - eapply orders_between_weaken; [|exact Hb]. lia.
  - rewrite (post_todos_valid _ s Hv). unfold orders_between. simpl.
    apply Forall_app. split.
    + eapply orders_between_weaken; [|exact Hb]. lia.
    + constructor; [|constructor]. simpl.
      now apply next_order_between.
Qed.

Lemma patch_todos_wf now todoId body s :
  store_wf s -> store_wf (snd (patch_todos now todoId body s)).
Proof.
  intros Hwf.
  destruct (findById todoId s) as [t|] eqn:E.
  - rewrite (patch_todos_docs _ _ _ _ _ Hwf E). simpl.
    apply findById_In in E. destruct E as [Ht _].
    assert (Hi : map _id (map (patch_doc now body t) (docs s))
                 = map _id (docs s)).
    { rewrite map_map. apply map_ext. apply patch_doc_id. }
    assert (Ho : map order (map (patch_doc now body t) (docs s))
                 = map (patch_order body t) (map order (docs s))).
    { rewrite !map_map. apply map_ext_in. intros d Hd.
      eapply patch_doc_order; eassumption. }
    destruct Hwf as [Hids Hfresh Hord].
    split; simpl.
    + now rewrite Hi.
    + rewrite Forall_forall in *. intros d Hd.
      apply in_map_iff in Hd. destruct Hd as [d0 [<- Hd0]].
      rewrite patch_doc_id. now apply Hfresh.
    + rewrite Ho. apply Injective_map_NoDup; [|assumption].
      apply patch_order_inj.
  - unfold patch_todos. rewrite E. assumption.
Qed.

Lemma delete_todos_wf todoId s :
  store_wf s -> store_wf (snd (delete_todos todoId s)).
Proof.
  intros Hwf. unfold delete_todos.
  destruct (findById todoId s); [|assumption].
  destruct Hwf as [Hids Hfresh Hord].
  split; simpl.
  - now apply removeOne_NoDup.
  - rewrite Forall_forall in *. intros d Hd.
    apply Hfresh. eapply removeOne_incl; eassumption.
  - now apply removeOne_NoDup.
Qed.

Lemma patch_order_cases body t o :
  patch_order body t o = o \/
  patch_order body t o = order t \/
  (exists k, req_order body = Some k /\ patch_order body t o = k).
Proof.
  unfold patch_order, exchange.
  destruct (req_order body) as [k|]; [|now left].
  destruct (truthy_number k); [|now left].
  destruct (o =? order t); [right; right; eauto|].
  destruct (o =? k); auto.
Qed.

Lemma patch_todos_between now todoId body s lo hi :
  store_wf s -> orders_between lo hi s ->
  patch_order_between lo hi (PATCH now todoId body) ->
  orders_between lo hi (snd (patch_todos now todoId body s)).
Proof.
  intros Hwf Hb Hk.
  destruct (findById todoId s) as [t|] eqn:E;
    [|unfold patch_todos; now rewrite E].
  rewrite (patch_todos_docs _ _ _ _ _ Hwf E).
  destruct (findById_In _ _ _ E) as [Ht _].
  unfold orders_between in *. simpl in *.
  rewrite Forall_forall in *. intros d' Hd'.
  apply in_map_iff in Hd'. destruct Hd' as [d [<- Hd]].
  rewrite (patch_doc_order _ _ s) by assumption.
  destruct (patch_order_cases body t (order d)) as [->|[->|[k [Hreq ->]]]].
  - now apply Hb.
  - now apply Hb.
  - now rewrite Hreq in Hk.
Qed.

Lemma delete_todos_between todoId s lo hi :
  orders_between lo hi s -> orders_between lo hi (snd (delete_todos todoId s)).
Proof.
  intros Hb. unfold delete_todos.
  destruct (findById todoId s); [|assumption].
  unfold orders_between in *. simpl. rewrite Forall_forall in *.
  intros d Hd. apply Hb. eapply removeOne_incl; eassumption.
Qed.

(** A request keeps the collection well formed while the orders are below
    2^53, and raises the greatest order by one at most. *)
Lemma handle_wf r s hi :
  store_wf s -> orders_between (- two53) hi s -> 0 <= hi -> hi < two53 ->
  patch_order_between (- two53) hi r ->
  store_wf (snd (handle r s)) /\
  orders_between (- two53) (hi + 1) (snd (handle r s)).
Proof.
  intros Hwf Hb H0 Hhi Hr.
  destruct r as [body| |now todoId body|todoId]; simpl.
  - split; [eapply post_todos_wf; eassumption|now apply post_todos_between].
  - split; [assumption|]. eapply orders_between_weaken; [|exact Hb]. lia.
  - split; [now apply patch_todos_wf|].
    eapply orders_between_weaken; [|eapply patch_todos_between; eassumption].
    lia.
  - split; [now apply delete_todos_wf|].
    eapply orders_between_weaken; [|apply delete_todos_between; exact Hb].
    lia.
Qed.

Lemma run_cons r rs s : run (r :: rs) s = run rs (snd (handle r s)).
Proof.
  unfold run. simpl.
  destruct (handle r s) as [o s1]. simpl.
  destruct (run_trace rs s1). reflexivity.
Qed.

Lemma patch_order_between_weaken lo hi hi' r :
  hi <= hi' -> patch_order_between lo hi r -> patch_order_between lo hi' r.
Proof.
  intros Hle. destruct r as [body| |now todoId body|todoId]; simpl; trivial.
  destruct (req_order body); [lia|trivial].
Qed.

Lemma run_wf rs :
  forall s hi,
    store_wf s -> orders_between (- two53) hi s -> 0 <= hi ->
    hi + Z.of_nat (List.length rs) <= two53 ->
    Forall (patch_order_between (- two53) hi) rs ->
    store_wf (run rs s) /\
    orders_between (- two53) (hi + Z.of_nat (List.length rs)) (run rs s).
Proof.
  induction rs as [|r rs IH]; intros s hi Hwf Hb H0 Hlen Hrs.
  - split; [exact Hwf|]. simpl. now rewrite Z.add_0_r.
  - inversion Hrs as [|? ? Hr Hrs']; subst.
    rewrite run_cons.
    change (List.length (r :: rs)) with (S (List.length rs)) in *.
    rewrite Nat2Z.inj_succ in *.
    destruct (handle_wf r s hi Hwf Hb H0 ltac:(lia) Hr) as [Hwf1 Hb1].
    destruct (IH (snd (handle r s)) (hi + 1) Hwf1 Hb1 ltac:(lia) ltac:(lia))
      as [Hwf2 Hb2].
    + eapply Forall_impl; [|exact Hrs']. intros r'.
      apply patch_order_between_weaken. lia.
    + split; [exact Hwf2|].
      eapply orders_between_weaken; [|exact Hb2]. lia.
Qed.

(** The documents of a well-formed collection after a PATCH that found
    its target. *)
Lemma findById_patch now todoId body s t d :
  store_wf s -> findById todoId s = Some t -> In d (docs s) ->
  findById (_id d) (snd (patch_todos now todoId body s))
  = Some (patch_doc now body t d).
Proof.
  intros Hwf Ht Hd. rewrite (patch_todos_docs _ _ _ _ _ Hwf Ht).
  unfold findById. simpl.
  rewrite find_id_map by apply patch_doc_id.
  fold (findById (_id d) s).
  rewrite findById_unique; [reflexivity|apply Hwf|assumption].
Qed.

Lemma patch_doc_target now body t : patch_doc now body t t = patch_target now body t.
Proof. unfold patch_doc. now rewrite Nat.eqb_refl. Qed.

Lemma patch_doc_other now body t d :
  _id d <> _id t ->
  patch_doc now body t d
  = match req_order body with
    | Some o =>
        if truthy_number o && (order d =? o) then set_order d (order t) else d
    | None => d
    end.
Proof.
  intros Hne. unfold patch_doc.
  apply Nat.eqb_neq in Hne. now rewrite Hne.
Qed.

Lemma truthy_number_nonzero k : k <> 0 -> truthy_number k = true.
Proof.
  intros Hk. unfold truthy_number. apply Z.eqb_neq in Hk. now rewrite Hk.
Qed.

Lemma set_order_same t : set_order t (order t) = t.
Proof. now destruct t. Qed.

Lemma patch_orders now todoId body s t :
  store_wf s -> findById todoId s = Some t ->
  map order (docs (snd (patch_todos now todoId body s)))
  = map (patch_order body t) (map order (docs s)).
Proof.
  intros Hwf Ht. rewrite (patch_todos_docs _ _ _ _ _ Hwf Ht). simpl.
  rewrite !map_map. apply map_ext_in. intros d Hd.
  eapply patch_doc_order; try eassumption.
  now apply findById_In in Ht.
Qed.

Lemma patch_ids now todoId body s t :
  store_wf s -> findById todoId s = Some t ->
  map _id (docs (snd (patch_todos now todoId body s))) = map _id (docs s).
Proof.
  intros Hwf Ht. rewrite (patch_todos_docs _ _ _ _ _ Hwf Ht). simpl.
  rewrite map_map. apply map_ext. apply patch_doc_id.
Qed.

Lemma store_ab_wf : store_wf store_ab.
Proof.
  split; simpl.
  - repeat constructor; simpl; intuition discriminate.
  - repeat constructor.
  - repeat constructor; simpl; intuition discriminate.
Qed.

Lemma run_trace_cons r rs s :
  fst (run_trace (r :: rs) s)
  = fst (handle r s) :: fst (run_trace rs (snd (handle r s))).
Proof.
  simpl. destruct (handle r s) as [o s1]. simpl.
  destruct (run_trace rs s1). reflexivity.
Qed.

(** Create moves the next order up by one, below 2^53. *)
Lemma next_order_post v s hi :
  valid_value v ->
  orders_between (- two53) hi s -> 0 <= hi -> hi + 1 < two53 ->
  next_order (snd (post_todos {| post_value := JStr v; post_unknown := [] |} s))
  = next_order s + 1.
Proof.
  intros Hv Hb H0 Hhi.
  pose proof (post_todos_between {| post_value := JStr v; post_unknown := [] |}
                s hi Hb H0 ltac:(lia)) as Hb1.
  rewrite (next_order_exact _ (hi + 1) Hb1 Hhi).
  rewrite (post_todos_valid _ s Hv). simpl.
  set (todo := {| _id := nextId s; value := v; order := next_order s;
                  doneAt := Undefined |}).
  set (s1 := {| docs := docs s ++ [todo]; nextId := S (nextId s) |}).
  destruct (findOne_sort_desc s1) as [m|] eqn:E.
  - apply findOne_sort_desc_max in E. destruct E as [Hm Hmax].
    simpl in Hm, Hmax.
    assert (Hle : order todo <= order m).
    { apply Hmax. apply in_or_app. right. now left. }
    apply in_app_or in Hm. destruct Hm as [Hm|[<-|[]]]; [|reflexivity].
    pose proof (next_order_above s hi m Hb ltac:(lia) Hm). simpl in Hle. lia.
  - apply findOne_sort_desc_none in E. simpl in E.
    destruct (docs s); discriminate.
Qed.

Lemma creates_orders vs :
  forall s hi,
    Forall valid_value vs ->
    orders_between (- two53) hi s -> 0 <= hi ->
    hi + Z.of_nat (List.length vs) <= two53 ->
    map created_order (fst (run_trace (map post vs) s))
    = map (fun i => Some (next_order s + Z.of_nat i)) (seq 0 (List.length vs)).
Proof.
  induction vs as [|v vs IH]; intros s hi Hall Hb H0 Hlen; [reflexivity|].
  inversion Hall as [|? ? Hv Hvs]; subst.
  change (List.length (v :: vs)) with (S (List.length vs)) in *.
  rewrite Nat2Z.inj_succ in Hlen.
  change (map post (v :: vs)) with (post v :: map post vs).
  rewrite run_trace_cons.
  change (handle (post v) s)
    with (post_todos {| post_value := JStr v; post_unknown := [] |} s).
  pose proof (post_todos_between {| post_value := JStr v; post_unknown := [] |}
                s hi Hb H0 ltac:(lia)) as Hb1.
  rewrite map_cons.
  rewrite (IH _ (hi + 1) Hvs Hb1 ltac:(lia) ltac:(lia)).
  simpl seq. rewrite map_cons. f_equal.
  - rewrite (post_todos_valid _ s Hv). simpl. f_equal. lia.
  - destruct vs as [|v' vs']; [reflexivity|].
    change (List.length (v' :: vs')) with (S (List.length vs')) in *.
    rewrite Nat2Z.inj_succ in Hlen.
    rewrite (next_order_post v s hi Hv Hb H0 ltac:(lia)).
    rewrite <- seq_shift, map_map. apply map_ext. intros i. f_equal. lia.
Qed.

(** Looking a document up by id after a save, in any collection. *)
Lemma find_id_updateOne t i l :
  find (fun d => Nat.eqb (_id d) i) (updateOne t l)
  = if Nat.eqb (_id t) i
    then option_map (fun _ => t) (find (fun d => Nat.eqb (_id d) i) l)
    else find (fun d => Nat.eqb (_id d) i) l.
Proof.
  induction l as [|x l IH]; simpl.
  - now destruct (Nat.eqb (_id t) i).
  - destruct (Nat.eqb (_id x) (_id t)) eqn:Ext; simpl.
    + apply Nat.eqb_eq in Ext. rewrite Ext.
      now destruct (Nat.eqb (_id t) i).
    + destruct (Nat.eqb (_id x) i) eqn:Exi.
      * apply Nat.eqb_eq in Exi. subst i.
        rewrite Nat.eqb_sym, Ext. reflexivity.
      * exact IH.
Qed.

Lemma findById_save t i s :
  findById i (save t s)
  = if Nat.eqb (_id t) i then option_map (fun _ => t) (findById i s)
    else findById i s.
Proof. apply find_id_updateOne. Qed.

Lemma findById_reorder_partner body t i s :
  findById i s <> None -> findById i (reorder_partner body t s) <> None.
Proof.
  intros H. unfold reorder_partner.
  destruct (req_order body) as [k|]; [|assumption].
  destruct (truthy_number k); [|assumption].
  destruct (findOne_order k s) as [p|]; [|assumption].
  rewrite findById_save. simpl.
  destruct (Nat.eqb (_id p) i); [|assumption].
  destruct (findById i s); [discriminate|contradiction].
Qed.

(** The target of a PATCH, in any collection. *)
Lemma findById_patch_target now todoId body s t :
  findById todoId s = Some t ->
  findById todoId (snd (patch_todos now todoId body s))
  = Some (patch_target now body t).
Proof.
  intros Hf. rewrite (patch_todos_found _ _ _ _ _ Hf). simpl.
  rewrite findById_save, patch_target_id.
  destruct (findById_In _ _ _ Hf) as [_ ->]. rewrite Nat.eqb_refl.
  assert (H : findById todoId (reorder_partner body t s) <> None).
  { apply findById_reorder_partner. rewrite Hf. discriminate. }
  destruct (findById todoId (reorder_partner body t s)); [reflexivity|].
  contradiction.
Qed.

(** ** The claims *)

(** C1 as stated fails once an order reaches 2^53: Create adds 1 to the
    greatest order as doubles are added, and 2^53 + 1 is 2^53. After a
    Create, an Update of the item to the order 2^53 and a second Create,
    both items have the order 2^53. *)
Lemma C1_counterexample :
  let rs := [post "a"; PATCH 0 0%nat (only_order two53); post "b"] in
  map order (docs (run rs empty_store)) = [two53; two53] /\
  ~ NoDup (map order (docs (run rs empty_store))).
Proof.
  split; [reflexivity|].
  intros H. change (NoDup [two53; two53]) in H.
  inversion H as [|? ? Hnotin _]. apply Hnotin. now left.
Qed.

(** C1 (amended). Whatever n Create, Update and Delete requests (and List
    requests) are served one after the other from the empty collection, if
    the orders supplied to Update are between -2^53 and a bound [hi] with
    [hi + n <= 2^53], the orders of the items that remain are pairwise
    distinct. As a prefix of such a sequence is such a sequence, this holds
    after each of its requests. *)
Theorem C1_orders_distinct (rs : list Request) (hi : Z) :
  0 <= hi -> hi + Z.of_nat (List.length rs) <= two53 ->
  Forall (patch_order_between (- two53) hi) rs ->
  NoDup (map order (docs (run rs empty_store))).
Proof.
  intros H0 Hlen Hrs. apply wf_orders.
  apply (run_wf rs empty_store hi); try assumption.
  - apply empty_store_wf.
  - constructor.
Qed.

Lemma C1_orders_distinct_witness :
  NoDup (map order (docs (run [post "a"; post "b";
                               PATCH 0 0%nat (only_order 2);
                               DELETE 1%nat; post "c";
                               PATCH 0 2%nat (only_order (-7))]
                              empty_store))).
Proof.
  apply (C1_orders_distinct _ 100).
  - lia.
  - vm_compute. intros H. discriminate H.
  - repeat constructor; simpl; unfold two53; lia.
Defined.

(** C2 as stated fails when the order of B is 0, which a collection reaches
    when an item was moved to order -1 before B was created: the request
    [{ order: 0 }] is falsy for [if (order)] and nothing is exchanged. *)
Lemma C2_counterexample :
  let A := {| _id := 0; value := "a"; order := -1; doneAt := Undefined |} in
  let B := {| _id := 1; value := "b"; order := 0; doneAt := Undefined |} in
  let s' := snd (patch_todos 0 (_id A) (only_order (order B)) store_zero) in
  docs store_zero = [A; B] /\
  findById (_id A) s' = Some A /\
  findById (_id B) s' = Some B /\
  order A <> order B.
Proof. vm_compute. repeat split; discriminate. Qed.

(** C2 (amended). In a collection with distinct ids and distinct orders
    that holds A and another item B whose order is not 0, Update of A with
    the order of B answers 200, gives A the order of B and B the order of
    A, changes nothing else of B, leaves every other item as it was, and
    leaves A as it was but for its order when only [order] is supplied. *)
Theorem C2_exchange now s A B body :
  store_wf s -> In A (docs s) -> In B (docs s) -> _id A <> _id B ->
  order B <> 0 -> req_order body = Some (order B) ->
  let s' := snd (patch_todos now (_id A) body s) in
  fst (patch_todos now (_id A) body s) = Respond 200 JEmpty /\
  (exists A', findById (_id A) s' = Some A' /\ order A' = order B) /\
  findById (_id B) s' = Some (set_order B (order A)) /\
  (forall C, In C (docs s) -> _id C <> _id A -> _id C <> _id B ->
             findById (_id C) s' = Some C) /\
  map _id (docs s') = map _id (docs s) /\
  (body = only_order (order B) ->
   findById (_id A) s' = Some (set_order A (order B))).
Proof.
  intros Hwf HA HB Hne H0 Hreq s'.
  assert (Hf : findById (_id A) s = Some A)
    by (apply findById_unique; [apply Hwf|assumption]).
  assert (Ht : truthy_number (order B) = true)
    by now apply truthy_number_nonzero.
  subst s'. repeat split.
  - now rewrite (patch_todos_docs _ _ _ _ _ Hwf Hf).
  - exists (patch_target now body A). split.
    + rewrite (findById_patch _ _ _ _ _ _ Hwf Hf HA).
      now rewrite patch_doc_target.
    + rewrite patch_target_order. unfold patch_order, exchange.
      now rewrite Hreq, Ht, Z.eqb_refl.
  - rewrite (findById_patch _ _ _ _ _ _ Hwf Hf HB).
    rewrite patch_doc_other by auto.
    now rewrite Hreq, Ht, Z.eqb_refl.
  - intros C HC HCA HCB.
    rewrite (findById_patch _ _ _ _ _ _ Hwf Hf HC).
    rewrite patch_doc_other by assumption.
    rewrite Hreq, Ht. simpl.
    destruct (order C =? order B) eqn:E; [|reflexivity].
    apply Z.eqb_eq in E. exfalso. apply HCB. f_equal.
    eapply (key_inj_in order); try eassumption. apply Hwf.
  - eapply patch_ids; eassumption.
  - intros ->.
    rewrite (findById_patch _ _ _ _ _ _ Hwf Hf HA).
    rewrite patch_doc_target. unfold patch_target. simpl.
    now rewrite Ht.
Qed.

Lemma C2_exchange_witness :
  let A := {| _id := 0; value := "a"; order := 1; doneAt := Undefined |} in
  let B := {| _id := 1; value := "b"; order := 2; doneAt := Undefined |} in
  let s' := snd (patch_todos 7 0 (only_order 2) store_ab) in
  findById 0%nat s' = Some (set_order A 2) /\
  findById 1%nat s' = Some (set_order B 1).
Proof.
  intros A B s'.
  assert (HA : In A (docs store_ab)) by (vm_compute; auto).
  assert (HB : In B (docs store_ab)) by (vm_compute; auto).
  assert (Hne : _id A <> _id B) by (vm_compute; discriminate).
  assert (H0 : order B <> 0) by (vm_compute; discriminate).
  pose proof (C2_exchange 7 store_ab A B (only_order 2)
                store_ab_wf HA HB Hne H0 eq_refl) as H.
  destruct H as [_ [_ [HB' [_ [_ HA']]]]].
  split; [exact (HA' eq_refl)|exact HB'].
Defined.

(** C3 as stated fails on a collection whose greatest order is 2^53: the
    addition of doubles gives the new item the order 2^53 again, not
    2^53 + 1. *)
Lemma C3_counterexample :
  exists m todo s',
    is_max_order m (docs store_big) /\ order m = two53 /\
    post_todos {| post_value := JStr "b"; post_unknown := [] |} store_big
    = (Respond 201 (JTodo todo), s') /\
    order todo = two53 /\ order todo <> order m + 1.
Proof.
  exists {| _id := 0; value := "a"; order := two53; doneAt := Undefined |}.
  eexists. eexists. repeat split.
  - vm_compute. now left.
  - intros d [<-|[]]. vm_compute. discriminate.
  - discriminate.
Qed.

(** C3 (amended). On a collection that is empty or whose greatest order is
    at least -2^53 and below 2^53, Create with an accepted value answers
    with an item whose order is 1 when the collection is empty and,
    otherwise, the order of an item of greatest order plus 1; and n Create
    calls in a row from the empty collection, for n up to 2^53, are given
    the orders 1, 2, ..., n in the order of the calls. *)
Theorem C3_create_order :
  (forall v s, valid_value v ->
     (forall m, is_max_order m (docs s) -> - two53 <= order m < two53) ->
     exists todo s',
       post_todos {| post_value := JStr v; post_unknown := [] |} s
       = (Respond 201 (JTodo todo), s')
       /\ (docs s = [] -> order todo = 1)
       /\ (docs s <> [] ->
            exists m, is_max_order m (docs s) /\ order todo = order m + 1))
  /\
  (forall vs, Forall valid_value vs ->
     Z.of_nat (List.length vs) <= two53 ->
     map created_order (fst (run_trace (map post vs) empty_store))
     = map Some (orders_from_1 (List.length vs))).
Proof.
  split.
  - intros v s Hv Hb. rewrite (post_todos_valid _ s Hv).
    eexists. eexists. split; [reflexivity|]. simpl. unfold next_order.
    destruct (findOne_sort_desc s) as [m|] eqn:E.
    + rewrite js_add_exact
        by (apply Hb; now apply findOne_sort_desc_max).
      split.
      * intros Hnil. apply findOne_sort_desc_max in E.
        destruct E as [Hm _]. rewrite Hnil in Hm. contradiction.
      * intros _. exists m. split; [|reflexivity].
        now apply findOne_sort_desc_max.
    + split; [reflexivity|].
      intros Hne. apply findOne_sort_desc_none in E. contradiction.
  - intros vs Hall Hlen.
    rewrite (creates_orders vs empty_store 0 Hall); [|constructor|lia|lia].
    unfold orders_from_1. rewrite <- seq_shift, !map_map.
    apply map_ext. intros i. f_equal. change (next_order empty_store) with 1.
    lia.
Qed.

Lemma C3_create_order_witness :
  (exists todo s',
     post_todos {| post_value := JStr "c"; post_unknown := [] |} store_ab
     = (Respond 201 (JTodo todo), s') /\ order todo = 3) /\
  map created_order
      (fst (run_trace (map post ["buy milk"; "walk dog"; "sleep"]%string)
                      empty_store))
  = [Some 1; Some 2; Some 3].
Proof.
  split.
  - assert (Hv : valid_value "c") by (vm_compute; lia).
    assert (Hb : forall m, is_max_order m (docs store_ab) ->
                           - two53 <= order m < two53).
    { intros m [Hm _]. vm_compute in Hm.
      destruct Hm as [<-|[<-|[]]]; vm_compute;
        (split; [intros H; discriminate H|reflexivity]). }
    destruct (proj1 C3_create_order "c"%string store_ab Hv Hb)
      as [todo [s' [Hp [_ Hmax]]]].
    exists todo, s'. split; [exact Hp|].
    destruct Hmax as [m [[Hm Hall] Ho]]; [discriminate|].
    rewrite Ho.
    assert (Hle : order m <= 2).
    { destruct Hm as [<-|[<-|[]]]; vm_compute; intros H; discriminate H. }
    assert (Hge : 2 <= order m).
    { apply (Hall {| _id := 1; value := "b"; order := 2;
                     doneAt := Undefined |}).
      right. now left. }
    lia.
  - assert (Hall : Forall valid_value ["buy milk"; "walk dog"; "sleep"]%string)
      by (repeat constructor).
    assert (Hlen : Z.of_nat
                     (List.length ["buy milk"; "walk dog"; "sleep"]%string)
                   <= two53) by (vm_compute; intros H; discriminate H).
    exact (proj2 C3_create_order _ Hall Hlen).
Defined.

(** C4 as stated fails for the supplied order 0: [if (order)] is false for
    0, the order-change steps do not run and the target keeps its order. *)
Lemma C4_counterexample :
  let A := {| _id := 0; value := "a"; order := 1; doneAt := Undefined |} in
  let body := {| req_order := Some 0; req_done := None; req_value := None |} in
  let s' := snd (patch_todos 0 (_id A) body store_a) in
  findById (_id A) store_a = Some A /\
  findById (_id A) s' = Some A /\
  Some (order A) <> req_order body.
Proof. vm_compute. repeat split; discriminate. Qed.

(** C4 (amended). For every Update call on an existing item of a collection
    with distinct ids and distinct orders: when the supplied order is an
    integer other than 0, the target gets the requested order, any other
    item that held it gets the previous order of the target and is
    otherwise unchanged, and the remaining items are unchanged; when the
    order is omitted or is 0, no order changes. *)
Theorem C4_order_change now todoId body s A :
  store_wf s -> findById todoId s = Some A ->
  let s' := snd (patch_todos now todoId body s) in
  (forall k, req_order body = Some k -> k <> 0 ->
     (exists A', findById todoId s' = Some A' /\ order A' = k) /\
     (forall B, In B (docs s) -> _id B <> todoId -> order B = k ->
                findById (_id B) s' = Some (set_order B (order A))) /\
     (forall C, In C (docs s) -> _id C <> todoId -> order C <> k ->
                findById (_id C) s' = Some C)) /\
  (req_order body = None \/ req_order body = Some 0 ->
   map order (docs s') = map order (docs s)).
Proof.
  intros Hwf Hf s'. subst s'.
  destruct (findById_In _ _ _ Hf) as [HA Hid].
  split.
  - intros k Hreq Hk.
    pose proof (truthy_number_nonzero k Hk) as Ht.
    repeat split.
    + exists (patch_target now body A). split.
      * rewrite <- Hid at 1.
        rewrite (findById_patch _ _ _ _ _ _ Hwf Hf HA).
        now rewrite patch_doc_target.
      * rewrite patch_target_order. unfold patch_order, exchange.
        now rewrite Hreq, Ht, Z.eqb_refl.
    + intros B HB HBA HBk.
      rewrite (findById_patch _ _ _ _ _ _ Hwf Hf HB).
      rewrite patch_doc_other by congruence.
      rewrite Hreq, Ht. apply Z.eqb_eq in HBk. now rewrite HBk.
    + intros C HC HCA HCk.
      rewrite (findById_patch _ _ _ _ _ _ Hwf Hf HC).
      rewrite patch_doc_other by congruence.
      rewrite Hreq, Ht. apply Z.eqb_neq in HCk. now rewrite HCk.
  - intros Hreq. rewrite (patch_orders _ _ _ _ _ Hwf Hf).
    rewrite <- (map_id (map order (docs s))) at 2.
    apply map_ext. intros o. unfold patch_order.
    destruct Hreq as [-> | ->]; reflexivity.
Qed.

Lemma C4_order_change_witness :
  let A := {| _id := 0; value := "a"; order := 1; doneAt := Undefined |} in
  let B := {| _id := 1; value := "b"; order := 2; doneAt := Undefined |} in
  let s' := snd (patch_todos 7 1 (only_order (-5)) store_ab) in
  (exists B', findById 1%nat s' = Some B' /\ order B' = -5) /\
  findById 0%nat s' = Some A.
Proof.
  intros A B s'.
  assert (Hf : findById 1 store_ab = Some B) by reflexivity.
  pose proof (C4_order_change 7 1%nat (only_order (-5)) store_ab B
                store_ab_wf Hf) as [H _].
  specialize (H (-5) eq_refl).
  destruct H as [HB [_ HC]]; [discriminate|].
  split; [exact HB|].
  apply (HC A); [vm_compute; auto|discriminate|discriminate].
Defined.

(** C5. The 1 to 50 bound on the length of [value] is checked by Create
    only: an Update that supplies a text of 51 characters stores it. *)
Theorem C5_update_stores_long_value :
  let s := run [post "a"; PATCH 0 0%nat (only_value text51)] empty_store in
  map value (docs s) = [text51] /\
  String.length text51 = 51%nat /\
  js_length text51 = 51%nat /\
  ~ valid_value text51.
Proof.
  repeat split; try reflexivity.
  unfold valid_value. change (js_length text51) with 51%nat. lia.
Qed.

(** C6. For every Update call on an existing item: with [done] true the
    item's [doneAt] becomes the instant of the call, with [done] false it
    becomes null, and without [done] it stays what it was. *)
Theorem C6_done now todoId body s A :
  findById todoId s = Some A ->
  exists A',
    findById todoId (snd (patch_todos now todoId body s)) = Some A' /\
    (req_done body = Some true -> doneAt A' = Date now) /\
    (req_done body = Some false -> doneAt A' = Null) /\
    (req_done body = None -> doneAt A' = doneAt A).
Proof.
  intros Hf.
  exists (patch_target now body A). split.
  - now apply findById_patch_target.
  - unfold patch_target.
    destruct (req_order body) as [k|]; [destruct (truthy_number k)|];
      (destruct (req_done body) as [[|]|]);
      (destruct (req_value body) as [v|]; [destruct (truthy_string v)|]);
      simpl; repeat split; intros H; try discriminate H; reflexivity.
Qed.

Lemma C6_done_witness :
  exists A',
    findById 0%nat (snd (patch_todos 42 0 (only_done true) store_a)) = Some A'
    /\ doneAt A' = Date 42.
Proof.
  assert (Hf : findById 0 store_a
               = Some {| _id := 0; value := "a"; order := 1; doneAt := Undefined |})
    by reflexivity.
  destruct (C6_done 42 0%nat (only_done true) store_a _ Hf)
    as [A' [HA' [Ht _]]].
  exists A'. split; [exact HA'|exact (Ht eq_refl)].
Defined.

(** C7 as stated fails for a body that has another key beside a value of
    1 to 50 characters: the schema is a [joi.object] of the one key
    [value], which refuses a body with any other key. *)
Lemma C7_counterexample :
  let body := {| post_value := JStr "a"; post_unknown := ["done"%string] |} in
  valid_value "a" /\
  post_todos body store_a
  = (Next (ValidationError object_unknown), store_a) /\
  fst (response (fst (post_todos body store_a))) = 400%nat.
Proof.
  split; [|split; reflexivity].
  unfold valid_value. simpl. lia.
Qed.

(** C7 (amended). Create with a value that is missing, not a string, empty
    or longer than 50 hands a validation error to the error handler, which
    answers 400, and leaves the collection as it was, and so does Create
    with a body that has a key other than [value]; Create with a body of
    the one key [value], a string of 1 to 50 characters, answers 201 with
    the item it has stored, which carries the value and its assigned
    order. Lengths are counted in UTF-16 code units. *)
Theorem C7_create_validation body s :
  (invalid_value (post_value body) \/ post_unknown body <> [] ->
     (exists code, fst (post_todos body s) = Next (ValidationError code)) /\
     (exists msg,
        response (fst (post_todos body s)) = (400%nat, JErrorMessage msg)) /\
     snd (post_todos body s) = s)
  /\
  (forall v, post_value body = JStr v -> valid_value v ->
     post_unknown body = [] ->
     exists todo,
       post_todos body s
       = (Respond 201 (JTodo todo),
          {| docs := docs s ++ [todo]; nextId := S (nextId s) |}) /\
       value todo = v /\ order todo = next_order s /\
       doneAt todo = Undefined).
Proof.
  split.
  - destruct body as [j others]. unfold post_todos, createdTodoSchema. simpl.
    destruct j as [| |b|z|v]; simpl; intros Hinv;
      try (repeat split; eexists; reflexivity).
    destruct (truthy_string v) eqn:Et; simpl;
      [|repeat split; eexists; reflexivity].
    destruct (js_length v <? 1)%nat eqn:E0;
      [simpl; repeat split; eexists; reflexivity|].
    destruct (50 <? js_length v)%nat eqn:E50;
      [simpl; repeat split; eexists; reflexivity|].
    destruct others as [|k others];
      [|simpl; repeat split; eexists; reflexivity].
    apply Nat.ltb_ge in E0. apply Nat.ltb_ge in E50.
    destruct Hinv as [[H|H]|H]; [lia|lia|contradiction].
  - intros v Hb Hv Hu. destruct body as [j others]. simpl in Hb, Hu. subst.
    rewrite (post_todos_valid _ s Hv).
    eexists. split; [reflexivity|]. simpl. auto.
Qed.

Lemma C7_create_validation_witness :
  snd (post_todos {| post_value := JStr text51; post_unknown := [] |} store_a)
  = store_a /\
  snd (post_todos {| post_value := JNum 3; post_unknown := [] |} store_a)
  = store_a /\
  (exists todo,
     fst (post_todos {| post_value := JStr "b"; post_unknown := [] |} store_a)
     = Respond 201 (JTodo todo) /\ order todo = 2) /\
  String.length text17 = 51%nat /\
  exists todo,
    fst (post_todos {| post_value := JStr text17; post_unknown := [] |}
                    store_a)
    = Respond 201 (JTodo todo) /\ value todo = text17.
Proof.
  split; [|split; [|split; [|split; [reflexivity|]]]].
  - apply (proj1 (C7_create_validation
                    {| post_value := JStr text51; post_unknown := [] |}
                    store_a)).
    left. simpl. right. vm_compute. lia.
  - apply (proj1 (C7_create_validation
                    {| post_value := JNum 3; post_unknown := [] |} store_a)).
    left. exact I.
  - assert (Hv : valid_value "b") by (vm_compute; lia).
    destruct (proj2 (C7_create_validation
                       {| post_value := JStr "b"; post_unknown := [] |}
                       store_a) "b"%string eq_refl Hv eq_refl)
      as [todo [Hp [_ [Ho _]]]].
    exists todo. rewrite Hp. split; [reflexivity|exact Ho].
  - assert (Hv : valid_value text17) by (vm_compute; lia).
    destruct (proj2 (C7_create_validation
                       {| post_value := JStr text17; post_unknown := [] |}
                       store_a) text17 eq_refl Hv eq_refl)
      as [todo [Hp [Hval _]]].
    exists todo. rewrite Hp. split; [reflexivity|exact Hval].
Defined.

(** C8. When the id is that of no item of the collection, Update and Delete
    both answer 404 with an error message and leave the collection exactly
    as it was. *)
Theorem C8_not_found now todoId body s :
  findById todoId s = None ->
  (exists msg,
     patch_todos now todoId body s = (Respond 404 (JErrorMessage msg), s)) /\
  (exists msg,
     delete_todos todoId s = (Respond 404 (JErrorMessage msg), s)).
Proof.
  intros H. unfold patch_todos, delete_todos. rewrite H.
  split; eexists; reflexivity.
Qed.

Lemma C8_not_found_witness :
  snd (patch_todos 0 9 (only_value "x") store_ab) = store_ab /\
  snd (delete_todos 9 store_ab) = store_ab.
Proof.
  assert (H : findById 9 store_ab = None) by reflexivity.
  destruct (C8_not_found 0 9%nat (only_value "x") store_ab H)
    as [[m1 H1] [m2 H2]].
  rewrite H1, H2. split; reflexivity.
Defined.

(** C9 as stated fails on the collection reached by a Create, an Update of
    the item to the order 2^53 and a second Create: its two items have the
    order 2^53, and the list that List answers with is not strictly
    decreasing, in whichever order it has them. *)
Lemma C9_counterexample :
  exists a b,
    fst (get_todos store_tie) = Respond 200 (JTodos [a; b]) /\
    order a = order b /\
    ~ StronglySorted strict_desc [a; b] /\
    ~ StronglySorted strict_desc [b; a].
Proof.
  eexists. eexists. split; [reflexivity|]. split; [reflexivity|].
  split; intros H; inversion H as [|? ? _ Hall]; subst;
    inversion Hall as [|? ? Hlt _]; subst;
    vm_compute in Hlt; discriminate Hlt.
Qed.

(** C9 (amended). On every collection whose orders are pairwise distinct,
    List answers 200 with all the items of the collection, each once,
    sorted so that every item has a strictly greater order than the items
    after it; it answers the empty list for the empty collection and
    leaves the collection as it was. *)
Theorem C9_list (s : Store) :
  NoDup (map order (docs s)) ->
  exists todos,
    get_todos s = (Respond 200 (JTodos todos), s) /\
    Permutation todos (docs s) /\
    StronglySorted strict_desc todos /\
    (docs s = [] -> todos = []).
Proof.
  intros Hnd. exists (sort_desc (docs s)). repeat split.
  - apply sort_desc_perm.
  - apply sorted_strict; [apply sort_desc_sorted|].
    eapply Permutation_NoDup; [|exact Hnd].
    apply Permutation_map. symmetry. apply sort_desc_perm.
  - intros ->. reflexivity.
Qed.

Lemma C9_list_witness :
  exists todos,
    get_todos store_ab = (Respond 200 (JTodos todos), store_ab) /\
    map value todos = ["b"; "a"]%string /\
    StronglySorted strict_desc todos.
Proof.
  destruct (C9_list store_ab) as [todos [Hg [_ [Hs _]]]].
  - apply store_ab_wf.
  - exists todos. split; [exact Hg|]. split; [|exact Hs].
    unfold get_todos in Hg. injection Hg as <-. reflexivity.
Defined.

(** C10. For an item A of a collection with distinct ids and distinct
    orders, Update of A with its own order answers 200 and leaves the
    orders (and ids) of all the items as they were; when the order is not
    0 the lookup by order does find A itself; and when nothing but the
    order is supplied the whole collection is as it was. *)
Theorem C10_self_order now s A body :
  store_wf s -> In A (docs s) -> req_order body = Some (order A) ->
  let r := patch_todos now (_id A) body s in
  fst r = Respond 200 JEmpty /\
  map order (docs (snd r)) = map order (docs s) /\
  map _id (docs (snd r)) = map _id (docs s) /\
  (order A <> 0 -> findOne_order (order A) s = Some A) /\
  (body = only_order (order A) -> snd r = s).
Proof.
  intros Hwf HA Hreq r. subst r.
  assert (Hf : findById (_id A) s = Some A)
    by (apply findById_unique; [apply Hwf|assumption]).
  repeat split.
  - now rewrite (patch_todos_docs _ _ _ _ _ Hwf Hf).
  - rewrite (patch_orders _ _ _ _ _ Hwf Hf).
    rewrite <- (map_id (map order (docs s))) at 2.
    apply map_ext. intros o. unfold patch_order, exchange. rewrite Hreq.
    destruct (truthy_number (order A)); [|reflexivity].
    destruct (o =? order A) eqn:E; [|reflexivity].
    apply Z.eqb_eq in E. now subst o.
  - eapply patch_ids; eassumption.
  - intros _. apply findOne_order_unique; [apply Hwf|assumption].
  - intros ->. rewrite (patch_todos_docs _ _ _ _ _ Hwf Hf). simpl.
    destruct s as [l n]. simpl in *. f_equal.
    rewrite <- (map_id l) at 2. apply map_ext_in. intros d Hd.
    unfold patch_doc, patch_target. simpl.
    destruct (Nat.eqb (_id d) (_id A)) eqn:E.
    + apply Nat.eqb_eq in E.
      assert (d = A)
        by (eapply (key_inj_in _id); try eassumption; apply Hwf).
      subst d. destruct (truthy_number (order A)); [|reflexivity].
      apply set_order_same.
    + destruct (truthy_number (order A)); simpl; [|reflexivity].
      destruct (order d =? order A) eqn:Eo; [|reflexivity].
      apply Z.eqb_eq in Eo. rewrite <- Eo. apply set_order_same.
Qed.

Lemma C10_self_order_witness :
  snd (patch_todos 7 1 (only_order 2) store_ab) = store_ab.
Proof.
  assert (HB : In {| _id := 1; value := "b"; order := 2; doneAt := Undefined |}
                  (docs store_ab)) by (vm_compute; auto).
  pose proof (C10_self_order 7 store_ab _ (only_order 2) store_ab_wf HB
                eq_refl) as [_ [_ [_ [_ H]]]].
  exact (H eq_refl).
Defined.

(** ** More about the handlers *)

(** *** Saving and removing documents *)

Lemma updateOne_ids t l : map _id (updateOne t l) = map _id l.
Proof.
  induction l as [|x l IH]; simpl; [reflexivity|].
  destruct (Nat.eqb (_id x) (_id t)) eqn:E; simpl.
  - apply Nat.eqb_eq in E. now rewrite E.
  - now rewrite IH.
Qed.

Lemma updateOne_self i t l :
  find (fun d => Nat.eqb (_id d) i) l = Some t -> updateOne t l = l.
Proof.
  induction l as [|x l IH]; simpl; [reflexivity|].
  destruct (Nat.eqb (_id x) i) eqn:E.
  - intros [= ->]. now rewrite Nat.eqb_refl.
  - intros H. destruct (find_id_In _ _ _ H) as [_ Hi].
    rewrite Hi, E. f_equal. now apply IH.
Qed.

Lemma updateOne_Forall (P : Todo -> Prop) t l :
  Forall P l -> P t -> Forall P (updateOne t l).
Proof.
  intros Hl Ht. induction Hl as [|x l Hx Hl IH]; simpl; [constructor|].
  destruct (Nat.eqb (_id x) (_id t)); constructor; assumption.
Qed.

Lemma removeOne_filter i l :
  NoDup (map _id l) ->
  removeOne i l = filter (fun d => negb (Nat.eqb (_id d) i)) l.
Proof.
  induction l as [|x l IH]; simpl; intros Hnd; [reflexivity|].
  inversion Hnd as [|? ? Hnotin Hnd']; subst.
  destruct (Nat.eqb (_id x) i) eqn:E; simpl.
  - apply Nat.eqb_eq in E. symmetry. apply forallb_filter_id.
    apply forallb_forall. intros d Hd.
    destruct (Nat.eqb (_id d) i) eqn:E'; [|reflexivity].
    apply Nat.eqb_eq in E'. exfalso. apply Hnotin.
    rewrite E, <- E'. now apply in_map.
  - f_equal. now apply IH.
Qed.

Lemma find_id_removeOne_ne i j l :
  i <> j ->
  find (fun d => Nat.eqb (_id d) j) (removeOne i l)
  = find (fun d => Nat.eqb (_id d) j) l.
Proof.
  intros Hne. induction l as [|x l IH]; simpl; [reflexivity|].
  destruct (Nat.eqb (_id x) i) eqn:Ei.
  - apply Nat.eqb_eq in Ei.
    destruct (Nat.eqb (_id x) j) eqn:Ej; [|reflexivity].
    apply Nat.eqb_eq in Ej. congruence.
  - simpl. destruct (Nat.eqb (_id x) j); [reflexivity|exact IH].
Qed.

Lemma find_id_removeOne_eq i l :
  NoDup (map _id l) ->
  find (fun d => Nat.eqb (_id d) i) (removeOne i l) = None.
Proof.
  intros Hnd. rewrite removeOne_filter by assumption.
  destruct (find _ _) as [d|] eqn:E; [|reflexivity].
  apply find_some in E. destruct E as [Hin Hd].
  apply filter_In in Hin. destruct Hin as [_ Hn].
  rewrite Hd in Hn. discriminate.
Qed.

Lemma removeOne_length i l t :
  find (fun d => Nat.eqb (_id d) i) l = Some t ->
  S (List.length (removeOne i l)) = List.length l.
Proof.
  induction l as [|x l IH]; simpl; [discriminate|].
  destruct (Nat.eqb (_id x) i); simpl; [reflexivity|].
  intros H. f_equal. now apply IH.
Qed.

Lemma removeOne_last i l t :
  Forall (fun d => _id d <> i) l -> _id t = i -> removeOne i (l ++ [t]) = l.
Proof.
  intros Hl Ht. induction Hl as [|x l Hx Hl IH]; simpl.
  - apply Nat.eqb_eq in Ht. now rewrite Ht.
  - apply Nat.eqb_neq in Hx. rewrite Hx. now rewrite IH.
Qed.

(** *** Sorting a collection to which Create has appended *)

Lemma sort_desc_append l t :
  Forall (fun d => order d < order t) l ->
  sort_desc (l ++ [t]) = t :: sort_desc l.
Proof.
  induction 1 as [|x l Hx Hl IH]; simpl; [reflexivity|].
  rewrite IH. simpl.
  destruct (order t <=? order x) eqn:E; [|reflexivity].
  apply Z.leb_le in E. lia.
Qed.

Lemma next_order_Forall s hi :
  orders_between (- two53) hi s -> hi < two53 ->
  Forall (fun d => order d < next_order s) (docs s).
Proof.
  intros Hb Hhi. apply Forall_forall. intros d.
  now apply (next_order_above s hi).
Qed.

Lemma exchange_invol a b o : exchange a b (exchange a b o) = o.
Proof.
  unfold exchange.
  destruct (o =? a) eqn:Ea; [apply Z.eqb_eq in Ea|apply Z.eqb_neq in Ea].
  - subst o. rewrite Z.eqb_refl.
    destruct (b =? a) eqn:Eb; [now apply Z.eqb_eq in Eb|reflexivity].
  - destruct (o =? b) eqn:Eb; [apply Z.eqb_eq in Eb|apply Z.eqb_neq in Eb].
    + subst o. now rewrite Z.eqb_refl.
    + apply Z.eqb_neq in Ea, Eb. now rewrite Ea, Eb.
Qed.

Lemma exchange_closed a b o (l : list Z) :
  In a l -> In b l -> In o l -> In (exchange a b o) l.
Proof.
  intros Ha Hb Ho. unfold exchange.
  destruct (o =? a); [assumption|]. destruct (o =? b); assumption.
Qed.

(** *** DELETE *)

(** X1. Delete of an existing item of a collection with distinct ids
    answers 200 and removes that item only: the other documents stay, in
    place and with all their fields (no order is renumbered), the id is no
    longer found, and the collection has one document less. *)
Theorem X1_delete_existing todoId s A :
  NoDup (map _id (docs s)) -> findById todoId s = Some A ->
  let r := delete_todos todoId s in
  fst r = Respond 200 JEmpty /\
  docs (snd r) = filter (fun d => negb (Nat.eqb (_id d) todoId)) (docs s) /\
  findById todoId (snd r) = None /\
  (forall d, In d (docs s) -> _id d <> todoId ->
             findById (_id d) (snd r) = Some d) /\
  S (List.length (docs (snd r))) = List.length (docs s).
Proof.
  intros Hnd Hf r. subst r. unfold delete_todos. rewrite Hf. simpl.
  repeat split.
  - now apply removeOne_filter.
  - now apply find_id_removeOne_eq.
  - intros d Hd Hne. unfold findById. simpl.
    rewrite find_id_removeOne_ne by congruence.
    now apply findById_unique.
  - eapply removeOne_length. exact Hf.
Qed.

Lemma X1_delete_existing_witness :
  docs (snd (delete_todos 0 store_ab))
  = [{| _id := 1; value := "b"; order := 2; doneAt := Undefined |}].
Proof.
  assert (Hnd : NoDup (map _id (docs store_ab))) by apply store_ab_wf.
  assert (Hf : findById 0 store_ab
               = Some {| _id := 0; value := "a"; order := 1; doneAt := Undefined |})
    by reflexivity.
  destruct (X1_delete_existing 0%nat store_ab _ Hnd Hf) as [_ [H _]].
  rewrite H. reflexivity.
Defined.

(** X2. Once an item has been deleted, its id resolves to nothing: an
    Update or a Delete with that id answers 404 and changes nothing. *)
Theorem X2_deleted_is_not_found now todoId body s A :
  NoDup (map _id (docs s)) -> findById todoId s = Some A ->
  let s' := snd (delete_todos todoId s) in
  (exists msg,
     patch_todos now todoId body s' = (Respond 404 (JErrorMessage msg), s')) /\
  (exists msg,
     delete_todos todoId s' = (Respond 404 (JErrorMessage msg), s')).
Proof.
  intros Hnd Hf s'.
  assert (Hnone : findById todoId s' = None).
  { subst s'. unfold delete_todos. rewrite Hf. simpl.
    now apply find_id_removeOne_eq. }
  unfold patch_todos, delete_todos. rewrite Hnone.
  split; eexists; reflexivity.
Qed.

Lemma X2_deleted_is_not_found_witness :
  let s' := snd (delete_todos 1 store_ab) in
  fst (delete_todos 1 s') <> Respond 200 JEmpty /\
  snd (patch_todos 3 1 (only_done true) s') = s'.
Proof.
  intros s'.
  assert (Hnd : NoDup (map _id (docs store_ab))) by apply store_ab_wf.
  assert (Hf : findById 1 store_ab
               = Some {| _id := 1; value := "b"; order := 2; doneAt := Undefined |})
    by reflexivity.
  destruct (X2_deleted_is_not_found 3 1%nat (only_done true) store_ab _ Hnd Hf)
    as [[m1 H1] [m2 H2]].
  fold s' in H1, H2. rewrite H1, H2. split; [discriminate|reflexivity].
Defined.

(** *** PATCH *)

(** X3. For every Update call on an existing item: a non-empty [value]
    replaces the item's value; an empty or omitted [value] leaves it as it
    was. *)
Theorem X3_update_value now todoId body s A :
  findById todoId s = Some A ->
  exists A',
    findById todoId (snd (patch_todos now todoId body s)) = Some A' /\
    (forall v, req_value body = Some v -> v <> EmptyString -> value A' = v) /\
    (req_value body = None \/ req_value body = Some EmptyString ->
     value A' = value A).
Proof.
  intros Hf. exists (patch_target now body A). split.
  - now apply findById_patch_target.
  - unfold patch_target.
    destruct (req_order body) as [k|]; [destruct (truthy_number k)|];
      (destruct (req_done body) as [b|]);
      (destruct (req_value body) as [[|c v]|]); simpl;
      (split; [intros v' [= <-] Hne; congruence || reflexivity
              |intros [H|H]; try discriminate H; reflexivity]).
Qed.

Lemma X3_update_value_witness :
  map value (docs (snd (patch_todos 0 1 (only_value "c") store_ab)))
  = ["a"; "c"]%string /\
  exists A',
    findById 1%nat (snd (patch_todos 0 1 (only_value "c") store_ab)) = Some A'
    /\ value A' = "c"%string.
Proof.
  split; [reflexivity|].
  assert (Hf : findById 1 store_ab
               = Some {| _id := 1; value := "b"; order := 2; doneAt := Undefined |})
    by reflexivity.
  destruct (X3_update_value 0 1%nat (only_value "c") store_ab _ Hf)
    as [A' [HA' [Hv _]]].
  exists A'. split; [exact HA'|].
  apply Hv; [reflexivity|discriminate].
Defined.

(** X4. Whatever requests are served from the empty collection, no stored
    item has an empty value: Create refuses the empty string and Update
    skips it. *)
Theorem X4_values_not_empty (rs : list Request) :
  Forall (fun d => value d <> EmptyString) (docs (run rs empty_store)).
Proof.
  set (P := fun d : Todo => value d <> EmptyString).
  assert (Hstep : forall r s, Forall P (docs s) ->
                              Forall P (docs (snd (handle r s)))).
  { intros r s Hs. destruct r as [body| |now todoId body|todoId]; simpl.
    - destruct (post_todos_store body s) as [->|[v [Hv ->]]]; [assumption|].
      rewrite (post_todos_valid _ s Hv). simpl.
      apply Forall_app. split; [assumption|].
      constructor; [|constructor]. unfold P. simpl.
      intros ->. unfold valid_value in Hv. simpl in Hv. lia.
    - assumption.
    - destruct (findById todoId s) as [t|] eqn:E;
        [|unfold patch_todos; now rewrite E].
      rewrite (patch_todos_found _ _ _ _ _ E). simpl.
      assert (Ht : P t).
      { apply findById_In in E. destruct E as [Hin _].
        rewrite Forall_forall in Hs. now apply Hs. }
      apply updateOne_Forall.
      + unfold reorder_partner.
        destruct (req_order body) as [k|]; [|assumption].
        destruct (truthy_number k); [|assumption].
        destruct (findOne_order k s) as [p|] eqn:Ep; [|assumption].
        simpl. apply updateOne_Forall; [assumption|].
        apply findOne_order_In in Ep. destruct Ep as [Hin _].
        rewrite Forall_forall in Hs. exact (Hs p Hin).
      + unfold patch_target, P in *.
        destruct (req_order body) as [k|]; [destruct (truthy_number k)|];
          (destruct (req_done body) as [b|]);
          (destruct (req_value body) as [[|c v]|]); simpl;
          solve [assumption | discriminate].
    - unfold delete_todos. destruct (findById todoId s); [|assumption].
      simpl. rewrite Forall_forall in *. intros d Hd. apply Hs.
      eapply removeOne_incl; eassumption. }
  assert (Hrun : forall rs' s, Forall P (docs s) -> Forall P (docs (run rs' s))).
  { induction rs' as [|r rs' IH]; intros s Hs; [exact Hs|].
    rewrite run_cons. apply IH. now apply Hstep. }
  apply Hrun. constructor.
Qed.

(** X5. An Update whose [order] is omitted or 0, whose [done] is omitted
    and whose [value] is omitted or empty, on an existing item, answers 200
    and leaves the collection exactly as it was. *)
Theorem X5_update_nothing now todoId body s A :
  findById todoId s = Some A ->
  req_order body = None \/ req_order body = Some 0 ->
  req_done body = None ->
  req_value body = None \/ req_value body = Some EmptyString ->
  patch_todos now todoId body s = (Respond 200 JEmpty, s).
Proof.
  intros Hf Ho Hd Hv. rewrite (patch_todos_found _ _ _ _ _ Hf).
  assert (Hp : reorder_partner body A s = s).
  { unfold reorder_partner. destruct Ho as [-> | ->]; reflexivity. }
  assert (Ht : patch_target now body A = A).
  { unfold patch_target. rewrite Hd.
    destruct Ho as [-> | ->], Hv as [-> | ->]; reflexivity. }
  rewrite Hp, Ht. f_equal. unfold save.
  rewrite (updateOne_self todoId) by exact Hf. now destruct s.
Qed.

Lemma X5_update_nothing_witness :
  patch_todos 9 0
    {| req_order := Some 0; req_done := None; req_value := Some EmptyString |}
    store_ab
  = (Respond 200 JEmpty, store_ab).
Proof.
  assert (Hf : findById 0 store_ab
               = Some {| _id := 0; value := "a"; order := 1; doneAt := Undefined |})
    by reflexivity.
  apply (X5_update_nothing 9 0%nat _ store_ab _ Hf);
    [right|simpl|right]; reflexivity.
Defined.

(** X6. Update never adds or removes a document: whatever the id and the
    body, in any collection, the documents after the call carry the same
    ids in the same places. *)
Theorem X6_update_keeps_ids now todoId body s :
  map _id (docs (snd (patch_todos now todoId body s))) = map _id (docs s).
Proof.
  destruct (findById todoId s) as [t|] eqn:E;
    [|unfold patch_todos; now rewrite E].
  rewrite (patch_todos_found _ _ _ _ _ E). simpl.
  rewrite updateOne_ids. unfold reorder_partner.
  destruct (req_order body) as [k|]; [|reflexivity].
  destruct (truthy_number k); [|reflexivity].
  destruct (findOne_order k s); [|reflexivity].
  simpl. apply updateOne_ids.
Qed.

(** X7. In a collection with distinct ids and orders, an Update of an
    existing item to an order that some item holds only permutes the
    orders in use: no order appears or disappears. *)
Theorem X7_update_permutes_orders now todoId body s A k :
  store_wf s -> findById todoId s = Some A ->
  req_order body = Some k -> In k (map order (docs s)) ->
  Permutation (map order (docs (snd (patch_todos now todoId body s))))
              (map order (docs s)).
Proof.
  intros Hwf Hf Hreq Hk.
  rewrite (patch_orders _ _ _ _ _ Hwf Hf).
  unfold patch_order. rewrite Hreq.
  destruct (truthy_number k); [|now rewrite map_id].
  assert (Ha : In (order A) (map order (docs s))).
  { apply in_map. now apply findById_In in Hf. }
  apply NoDup_Permutation.
  - apply Injective_map_NoDup; [apply exchange_inj|apply Hwf].
  - apply Hwf.
  - intros o. split.
    + intros Ho. apply in_map_iff in Ho. destruct Ho as [o' [<- Ho']].
      now apply exchange_closed.
    + intros Ho. rewrite <- (exchange_invol (order A) k o).
      apply in_map. now apply exchange_closed.
Qed.

Lemma X7_update_permutes_orders_witness :
  Permutation
    (map order (docs (snd (patch_todos 0 0 (only_order 2) store_ab))))
    [1; 2].
Proof.
  assert (Hf : findById 0 store_ab
               = Some {| _id := 0; value := "a"; order := 1; doneAt := Undefined |})
    by reflexivity.
  assert (Hk : In 2 (map order (docs store_ab))) by (vm_compute; auto).
  exact (X7_update_permutes_orders 0 0%nat (only_order 2) store_ab _ 2
           store_ab_wf Hf eq_refl Hk).
Defined.

(** X8. In a collection with distinct ids and orders, moving an item to
    another order and then back to the order it had restores the whole
    collection, whether or not the other order was held by an item; both
    orders are non-zero. *)
Theorem X8_update_back now now' s A k :
  store_wf s -> In A (docs s) -> order A <> 0 -> k <> 0 ->
  let s1 := snd (patch_todos now (_id A) (only_order k) s) in
  snd (patch_todos now' (_id A) (only_order (order A)) s1) = s.
Proof.
  intros Hwf HA Ha Hk s1.
  assert (Hf : findById (_id A) s = Some A)
    by (apply findById_unique; [apply Hwf|assumption]).
  pose proof (truthy_number_nonzero _ Ha) as Hta.
  pose proof (truthy_number_nonzero _ Hk) as Htk.
  assert (Hwf1 : store_wf s1) by (subst s1; now apply patch_todos_wf).
  assert (Hf1 : findById (_id A) s1 = Some (set_order A k)).
  { subst s1. rewrite (findById_patch_target _ _ _ _ _ Hf).
    unfold patch_target. simpl. now rewrite Htk. }
  rewrite (patch_todos_docs _ _ _ _ _ Hwf1 Hf1). simpl.
  subst s1. rewrite (patch_todos_docs _ _ _ _ _ Hwf Hf). simpl.
  destruct s as [l n]. simpl in *. f_equal.
  rewrite map_map. rewrite <- (map_id l) at 2.
  apply map_ext_in. intros d Hd.
  unfold patch_doc at 2. unfold patch_target. simpl. rewrite Htk. simpl.
  destruct (Nat.eqb (_id d) (_id A)) eqn:E.
  - apply Nat.eqb_eq in E.
    assert (d = A)
      by (eapply (key_inj_in _id); try eassumption; apply Hwf).
    subst d. unfold patch_doc, patch_target. simpl.
    rewrite Nat.eqb_refl, Hta. now destruct A.
  - assert (Hne : order d <> order A).
    { intros Ho.
      assert (d = A)
        by (eapply (key_inj_in order); try eassumption; apply Hwf).
      subst d. rewrite Nat.eqb_refl in E. discriminate. }
    destruct (order d =? k) eqn:Ek.
    + apply Z.eqb_eq in Ek. unfold patch_doc. simpl.
      rewrite E, Hta, Z.eqb_refl. simpl. rewrite <- Ek. now destruct d.
    + unfold patch_doc. simpl. rewrite E, Hta.
      apply Z.eqb_neq in Hne. now rewrite Hne.
Qed.

Lemma X8_update_back_witness :
  snd (patch_todos 2 0 (only_order 1)
         (snd (patch_todos 1 0 (only_order 2) store_ab)))
  = store_ab.
Proof.
  assert (HA : In {| _id := 0; value := "a"; order := 1; doneAt := Undefined |}
                  (docs store_ab)) by (vm_compute; auto).
  apply (X8_update_back 1 2 store_ab _ 2 store_ab_wf HA); discriminate.
Defined.

(** *** POST *)

(** X9. Create has two outcomes only: it hands a validation error to the
    error handler and leaves the collection as it was, or it answers 201
    with the item it appended. The handler's own 400 answer for a missing
    value is never given, since the schema has already refused every value
    [!value] would refuse. *)
Theorem X9_create_outcomes body s :
  (exists code, post_todos body s = (Next (ValidationError code), s)) \/
  (exists todo,
     post_todos body s
     = (Respond 201 (JTodo todo),
        {| docs := docs s ++ [todo]; nextId := S (nextId s) |})).
Proof.
  destruct body as [j others]. unfold post_todos, createdTodoSchema. simpl.
  destruct j as [| |b|z|v]; try (left; eexists; reflexivity).
  destruct (truthy_string v) eqn:Et; simpl; [|left; eexists; reflexivity].
  destruct (js_length v <? 1)%nat; [left; eexists; reflexivity|].
  destruct (50 <? js_length v)%nat; [left; eexists; reflexivity|].
  destruct others as [|k others]; [|left; eexists; reflexivity].
  rewrite Et. simpl. right. eexists. reflexivity.
Qed.

(** X10. After a Create that is accepted, on a collection whose orders are
    pairwise distinct and between -2^53 and 2^53 - 1, List answers with the
    created item first, followed by what List answered before. *)
Theorem X10_created_is_listed_first v s :
  valid_value v -> NoDup (map order (docs s)) -> exact_range s ->
  exists todo s',
    post_todos {| post_value := JStr v; post_unknown := [] |} s
    = (Respond 201 (JTodo todo), s') /\
    value todo = v /\
    fst (get_todos s') = Respond 200 (JTodos (todo :: find_sort_desc s)).
Proof.
  intros Hv _ Hb. rewrite (post_todos_valid _ s Hv).
  eexists. eexists. split; [reflexivity|]. split; [reflexivity|].
  unfold get_todos, find_sort_desc. simpl.
  rewrite sort_desc_append; [reflexivity|].
  simpl. apply (next_order_Forall s (two53 - 1) Hb). lia.
Qed.

Lemma X10_created_is_listed_first_witness :
  exists todo s',
    post_todos {| post_value := JStr "c"; post_unknown := [] |} store_ab
    = (Respond 201 (JTodo todo), s') /\
    map value (find_sort_desc s') = ["c"; "b"; "a"]%string.
Proof.
  assert (Hv : valid_value "c") by (vm_compute; lia).
  assert (Hnd : NoDup (map order (docs store_ab))) by apply store_ab_wf.
  assert (Hb : exact_range store_ab)
    by (repeat constructor; vm_compute; intros H; discriminate H).
  destruct (X10_created_is_listed_first "c" store_ab Hv Hnd Hb)
    as [todo [s' [Hp [Hval Hg]]]].
  exists todo, s'. split; [exact Hp|].
  unfold get_todos in Hg. simpl in Hg. injection Hg as Hg.
  rewrite Hg. simpl. rewrite Hval. reflexivity.
Defined.

(** X11. In a collection whose ids are distinct and were drawn from the
    counter, a Create that is accepted followed by the Delete of the
    created item answers 200 and gives back the documents there were. *)
Theorem X11_create_then_delete v s :
  store_wf s -> valid_value v ->
  exists todo s1 s2,
    post_todos {| post_value := JStr v; post_unknown := [] |} s = (Respond 201 (JTodo todo), s1) /\
    delete_todos (_id todo) s1 = (Respond 200 JEmpty, s2) /\
    docs s2 = docs s.
Proof.
  intros Hwf Hv. rewrite (post_todos_valid _ s Hv).
  eexists. eexists. eexists. split; [reflexivity|].
  set (todo := {| _id := nextId s; value := v; order := next_order s;
                  doneAt := Undefined |}).
  assert (Hfresh : Forall (fun d => _id d <> nextId s) (docs s)).
  { eapply Forall_impl; [|apply Hwf]. simpl. intros d Hd. lia. }
  unfold delete_todos, findById. simpl.
  assert (Hfind : find (fun d => Nat.eqb (_id d) (nextId s)) (docs s ++ [todo])
                  = Some todo).
  { clear Hwf. induction Hfresh as [|x l Hx Hl IH]; simpl.
    - now rewrite Nat.eqb_refl.
    - apply Nat.eqb_neq in Hx. now rewrite Hx. }
  rewrite Hfind. split; [reflexivity|]. simpl.
  now apply removeOne_last.
Qed.

Lemma X11_create_then_delete_witness :
  exists todo s1 s2,
    post_todos {| post_value := JStr "c"; post_unknown := [] |} store_ab
    = (Respond 201 (JTodo todo), s1) /\
    delete_todos (_id todo) s1 = (Respond 200 JEmpty, s2) /\
    docs s2 = docs store_ab.
Proof.
  assert (Hv : valid_value "c") by (vm_compute; lia).
  exact (X11_create_then_delete "c" store_ab store_ab_wf Hv).
Defined.

(** X12. After n Create calls with accepted values from the empty
    collection and nothing else, for n up to 2^53, List answers with the
    items newest first: their values are those of the calls in reverse. *)
Theorem X12_creates_listed_newest_first vs :
  Forall valid_value vs -> Z.of_nat (List.length vs) <= two53 ->
  exists todos,
    fst (get_todos (run (map post vs) empty_store)) = Respond 200 (JTodos todos)
    /\ map value todos = rev vs.
Proof.
  intros Hall Hlen. eexists. split; [reflexivity|].
  assert (Hgen : forall s hi,
             orders_between (- two53) hi s -> 0 <= hi ->
             hi + Z.of_nat (List.length vs) <= two53 ->
             map value (find_sort_desc (run (map post vs) s))
             = rev vs ++ map value (find_sort_desc s)).
  { clear Hlen.
    induction Hall as [|v vs Hv Hvs IH]; intros s hi Hb H0 Hlen;
      [reflexivity|].
    change (List.length (v :: vs)) with (S (List.length vs)) in Hlen.
    rewrite Nat2Z.inj_succ in Hlen.
    change (map post (v :: vs)) with (post v :: map post vs).
    rewrite run_cons.
    change (handle (post v) s)
      with (post_todos {| post_value := JStr v; post_unknown := [] |} s).
    pose proof (post_todos_between
                  {| post_value := JStr v; post_unknown := [] |}
                  s hi Hb H0 ltac:(lia)) as Hb1.
    rewrite (IH _ (hi + 1) Hb1 ltac:(lia) ltac:(lia)).
    rewrite (post_todos_valid _ s Hv). simpl.
    unfold find_sort_desc at 1. simpl.
    rewrite sort_desc_append by (apply (next_order_Forall s hi Hb); lia).
    simpl. now rewrite <- app_assoc. }
  rewrite (Hgen empty_store 0); [simpl; apply app_nil_r|constructor|lia|lia].
Qed.

Lemma X12_creates_listed_newest_first_witness :
  exists todos,
    fst (get_todos (run (map post ["buy milk"; "walk dog"]%string) empty_store))
    = Respond 200 (JTodos todos)
    /\ map value todos = ["walk dog"; "buy milk"]%string.
Proof.
  assert (Hall : Forall valid_value ["buy milk"; "walk dog"]%string)
    by (repeat constructor).
  assert (Hlen : Z.of_nat (List.length ["buy milk"; "walk dog"]%string)
                 <= two53) by (vm_compute; intros H; discriminate H).
  exact (X12_creates_listed_newest_first _ Hall Hlen).
Defined.

(** X13. An Update that supplies no order, or the order 0, touches no
    document but its target: in any collection, every other id resolves to
    the document it resolved to before. *)
Theorem X13_update_frame now todoId body s other :
  req_order body = None \/ req_order body = Some 0 ->
  other <> todoId ->
  findById other (snd (patch_todos now todoId body s)) = findById other s.
Proof.
  intros Ho Hne.
  destruct (findById todoId s) as [t|] eqn:E;
    [|unfold patch_todos; now rewrite E].
  rewrite (patch_todos_found _ _ _ _ _ E). simpl.
  assert (Hp : reorder_partner body t s = s).
  { unfold reorder_partner. destruct Ho as [-> | ->]; reflexivity. }
  rewrite Hp, findById_save, patch_target_id.
  destruct (findById_In _ _ _ E) as [_ ->].
  destruct (Nat.eqb todoId other) eqn:En; [|reflexivity].
  apply Nat.eqb_eq in En. congruence.
Qed.

Lemma X13_update_frame_witness :
  findById 1%nat (snd (patch_todos 5 0 (only_done true) store_ab))
  = Some {| _id := 1; value := "b"; order := 2; doneAt := Undefined |}.
Proof.
  rewrite (X13_update_frame 5 0%nat (only_done true) store_ab 1%nat);
    [reflexivity|left; reflexivity|discriminate].
Defined.

Lemma updateOne_twice t t' l :
  _id t = _id t' -> updateOne t' (updateOne t l) = updateOne t' l.
Proof.
  intros Hid. induction l as [|x l IH]; simpl; [reflexivity|].
  rewrite Hid. destruct (Nat.eqb (_id x) (_id t')) eqn:E; simpl.
  - now rewrite Hid, Nat.eqb_refl.
  - rewrite E. f_equal. exact IH.
Qed.

(** X14. Marking an item as done and then as not done leaves the
    collection as a single Update with [done] false leaves it, whatever the
    collection and the instants of the calls: the item's [doneAt] is null
    and nothing else has changed. The collection is back to what it was
    when the item's [doneAt] was null before. *)
Theorem X14_done_then_undone now now' todoId s A :
  findById todoId s = Some A ->
  let s1 := snd (patch_todos now todoId (only_done true) s) in
  patch_todos now' todoId (only_done false) s1
  = (Respond 200 JEmpty, save (set_doneAt A Null) s) /\
  patch_todos now' todoId (only_done false) s
  = (Respond 200 JEmpty, save (set_doneAt A Null) s) /\
  (doneAt A = Null ->
   patch_todos now' todoId (only_done false) s1 = (Respond 200 JEmpty, s)).
Proof.
  intros Hf s1.
  assert (Hf1 : findById todoId s1 = Some (set_doneAt A (Date now))).
  { subst s1. now rewrite (findById_patch_target _ _ _ _ _ Hf). }
  assert (H1 : patch_todos now' todoId (only_done false) s1
               = (Respond 200 JEmpty, save (set_doneAt A Null) s)).
  { rewrite (patch_todos_found _ _ _ _ _ Hf1). f_equal.
    unfold reorder_partner, patch_target. simpl.
    subst s1. rewrite (patch_todos_found _ _ _ _ _ Hf).
    unfold reorder_partner, patch_target, save. simpl.
    rewrite updateOne_twice by reflexivity. reflexivity. }
  split; [exact H1|]. split.
  - now rewrite (patch_todos_found _ _ _ _ _ Hf).
  - intros Hd. rewrite H1. f_equal.
    assert (HA : set_doneAt A Null = A) by (destruct A; simpl in *; now subst).
    rewrite HA. unfold save.
    rewrite (updateOne_self todoId) by exact Hf. now destruct s.
Qed.

Lemma X14_done_then_undone_witness :
  map doneAt
      (docs (snd (patch_todos 8 1 (only_done false)
                    (snd (patch_todos 7 1 (only_done true) store_ab)))))
  = [Undefined; Null].
Proof.
  assert (Hf : findById 1 store_ab
               = Some {| _id := 1; value := "b"; order := 2;
                         doneAt := Undefined |})
    by reflexivity.
  destruct (X14_done_then_undone 7 8 1%nat store_ab _ Hf) as [H _].
  rewrite H. reflexivity.
Defined.
